(** * xvalues: a shallow embedding of [xvalues.c]

    The program parses integers given on the command line (decimal, octal,
    hexadecimal, magnitude-suffixed or [0b] binary literals) and prints each
    one in hexadecimal, decimal, as a human readable size and, on request,
    as a bit string.

    Conventions of the embedding:
    - [uint64_t] is a [Z] in [0, 2^64); wrap-around is written with [wrap64];
    - a C string is the list of the characters stored at its address; the
      terminator is implicit: [char_at] reads ['\0'] past the end of the list
      and [strlen] stops at the first ['\0'];
    - pointers into a string are offsets ([nat]);
    - [stdout] and [stderr] are lists of characters, threaded explicitly;
    - the global [zero_ch] is passed as an argument to the code that reads it.
    The C library ([strtoull], [printf]) is modelled after ISO C17 on an
    IEEE-754 binary64 [double]. *)

From Stdlib Require Import String.
From Stdlib Require Import ZArith List Ascii Bool Lia Permutation.
Import ListNotations.

Local Open Scope Z_scope.

(** ** Machine integers *)

Definition UINT64_MAX : Z := 2 ^ 64 - 1.

Definition wrap64 (z : Z) : Z := z mod 2 ^ 64.

Definition is_uint64 (z : Z) : Prop := 0 <= z <= UINT64_MAX.

(** ** The table of magnitudes *)

Definition KB : Z := 1024.
Definition MB : Z := 1024 * KB.
Definition GB : Z := 1024 * MB.
Definition TB : Z := 1024 * GB.
Definition PB : Z := 1024 * TB.
Definition EB : Z := 1024 * PB.

Inductive multipliers : Type :=
  BYTE | KILO | MEGA | GIGA | TERA | PETA | EXI.

(** The numeric value of the enumerators. *)
Definition rank (m : multipliers) : Z :=
  match m with
  | BYTE => 0 | KILO => 1 | MEGA => 2 | GIGA => 3
  | TERA => 4 | PETA => 5 | EXI => 6
  end.

Definition all_multipliers : list multipliers :=
  [BYTE; KILO; MEGA; GIGA; TERA; PETA; EXI].

Record entry : Type := mk_entry {
  suffix : ascii;
  width_hex : nat;
  width_dec : nat;
  multi : Z
}.

Definition data (m : multipliers) : entry :=
  match m with
  | BYTE => mk_entry "b"  4  4 1
  | KILO => mk_entry "K"  8  7 (1 * KB)
  | MEGA => mk_entry "M"  8 10 (1 * MB)
  | GIGA => mk_entry "G" 12 13 (1 * GB)
  | TERA => mk_entry "T" 16 16 (1 * TB)
  | PETA => mk_entry "P" 16 19 (1 * PB)
  | EXI  => mk_entry "E" 16 20 (1 * EB)
  end.

Definition get_multiplier (v : Z) : multipliers :=
  if v <? 1 * KB then BYTE
  else if v <? 1 * MB then KILO
  else if v <? 1 * GB then MEGA
  else if v <? 1 * TB then GIGA
  else if v <? 1 * PB then TERA
  else if v <? 1 * EB then PETA
  else EXI.

(** ** C strings *)

Definition cstr : Type := list ascii.

Definition NUL : ascii := "000"%char.
Definition LF : ascii := "010"%char.

Definition str (s : string) : cstr := list_ascii_of_string s.

(** [s[i]]; the terminator is read past the stored characters. *)
Definition char_at (s : cstr) (i : nat) : ascii := nth i s NUL.

Fixpoint strlen (s : cstr) : nat :=
  match s with
  | [] => 0%nat
  | c :: t => if Ascii.eqb c NUL then 0%nat else S (strlen t)
  end.

Definition code (c : ascii) : Z := Z.of_N (N_of_ascii c).

(** ** [strtoull (s, &ptr, 0)] (ISO C17 7.22.1.4, "C" locale) *)

Definition isspace (c : ascii) : bool :=
  (code c =? 32) || ((9 <=? code c) && (code c <=? 13)).

Definition digit_value (c : ascii) : option Z :=
  let n := code c in
  if (48 <=? n) && (n <=? 57) then Some (n - 48)
  else if (97 <=? n) && (n <=? 122) then Some (n - 97 + 10)
  else if (65 <=? n) && (n <=? 90) then Some (n - 65 + 10)
  else None.

Definition digit_in (base : Z) (c : ascii) : option Z :=
  match digit_value c with
  | Some d => if d <? base then Some d else None
  | None => None
  end.

Fixpoint skip_space (s : cstr) : nat :=
  match s with
  | c :: t => if isspace c then S (skip_space t) else 0%nat
  | [] => 0%nat
  end.

(** The digit loop: the accumulated value, whether it left the range of
    [unsigned long long], and how many digits were consumed. *)
Fixpoint scan_digits (base : Z) (s : cstr) (acc : Z) (ovf : bool)
  : Z * bool * nat :=
  match s with
  | [] => (acc, ovf, 0%nat)
  | c :: t =>
      match digit_in base c with
      | None => (acc, ovf, 0%nat)
      | Some d =>
          let '(a, o, n) :=
            if ovf || (UINT64_MAX <? acc * base + d)
            then scan_digits base t acc true
            else scan_digits base t (acc * base + d) false in
          (a, o, S n)
      end
  end.

Record strtoull_result : Type := mk_strtoull {
  value : Z;
  endptr : nat
}.

Definition sign_of (s : cstr) : bool * nat :=
  match s with
  | c :: _ =>
      if Ascii.eqb c "-" then (true, 1%nat)
      else if Ascii.eqb c "+" then (false, 1%nat)
      else (false, 0%nat)
  | [] => (false, 0%nat)
  end.

(** Base detection for base 0: the base and the length of the prefix. *)
Definition base_of (s : cstr) : Z * nat :=
  if Ascii.eqb (char_at s 0) "0" then
    if Ascii.eqb (char_at s 1) "x" || Ascii.eqb (char_at s 1) "X"
    then (16, 2%nat)
    else (8, 0%nat)
  else (10, 0%nat).

Definition strtoull (s : cstr) : strtoull_result :=
  let ws := skip_space s in
  let s1 := skipn ws s in
  let '(neg, sg) := sign_of s1 in
  let s2 := skipn sg s1 in
  let '(base, pre) := base_of s2 in
  let '(a, ovf, n) := scan_digits base (skipn pre s2) 0 false in
  match n with
  | O =>
      (* no digits: "0x" alone is the literal 0 followed by x *)
      if Nat.eqb pre 2 then mk_strtoull 0 (ws + sg + 1) else mk_strtoull 0 0
  | S _ =>
      mk_strtoull
        (if ovf then UINT64_MAX else if neg then wrap64 (- a) else a)
        (ws + sg + pre + n)
  end.

(** ** Parsing an argument *)

Inductive parse_error : Type :=
| BinaryTooLong
| InvalidBinaryDigit
| InvalidSuffix (pos : nat).

(** [Ok v]: the function returns 0 and stores [v]; [Err e]: it returns -1
    after the [fprintf] named by [e]. *)
Inductive result : Type :=
| Ok (v : Z)
| Err (e : parse_error).

(** The loop of [parse_binary], with [i] the loop index. *)
Fixpoint parse_binary_loop (s : cstr) (i : nat) (mask v : Z) : result :=
  match i with
  | O => Ok v
  | S i' =>
      if (1 <? i)%nat then
        if Ascii.eqb (char_at s i) "1" then
          parse_binary_loop s i' (wrap64 (Z.shiftl mask 1)) (Z.lor v mask)
        else if negb (Ascii.eqb (char_at s i) "0") then
          Err InvalidBinaryDigit
        else parse_binary_loop s i' (wrap64 (Z.shiftl mask 1)) v
      else Ok v
  end.

Definition parse_binary (s : cstr) : result :=
  if (66 <? strlen s)%nat then Err BinaryTooLong
  else parse_binary_loop s (strlen s - 1) 1 0.

Definition suffix_multiplier (c : ascii) : option multipliers :=
  match c with
  | "K"%char | "k"%char => Some KILO
  | "M"%char | "m"%char => Some MEGA
  | "G"%char | "g"%char => Some GIGA
  | "T"%char | "t"%char => Some TERA
  | "P"%char | "p"%char => Some PETA
  | "E"%char | "e"%char => Some EXI
  | _ => None
  end.

Definition is_binary_literal (s : cstr) : bool :=
  (2 <? strlen s)%nat && Ascii.eqb (char_at s 0) "0"
  && (Ascii.eqb (char_at s 1) "b" || Ascii.eqb (char_at s 1) "B").

Definition get_value (s : cstr) : result :=
  if is_binary_literal s then parse_binary s
  else
    let r := strtoull s in
    let c := char_at s (endptr r) in
    if Ascii.eqb c NUL then Ok (value r)
    else
      match suffix_multiplier c with
      | Some m => Ok (wrap64 (value r * multi (data m)))
      | None => Err (InvalidSuffix (endptr r))
      end.

(** ** [printf] conversions *)

(** The digits of [n] in [base], most significant first ([fuel] bounds the
    number of digits; 64 is enough for any [uint64_t] in any base >= 2). *)
Fixpoint digits (base : Z) (fuel : nat) (n : Z) : list Z :=
  match fuel with
  | O => []
  | S f =>
      if n <? base then [n]
      else digits base f (n / base) ++ [n mod base]
  end.

Definition digit_char (d : Z) : ascii :=
  if d <? 10 then ascii_of_N (Z.to_N (48 + d))
  else ascii_of_N (Z.to_N (97 + (d - 10))).

(** [%llu] and [%llx] without width. *)
Definition fmt_u64 (base : Z) (v : Z) : cstr :=
  map digit_char (digits base 64 v).

Definition pad_left (c : ascii) (w : nat) (s : cstr) : cstr :=
  repeat c (w - length s) ++ s.

(** ["0x%0*" PRIx64] *)
Definition format_hex (v : Z) (width : multipliers) : cstr :=
  str "0x" ++ pad_left "0" (width_hex (data width)) (fmt_u64 16 v).

(** ["%*" PRIu64] *)
Definition format_decimal (v : Z) (width : multipliers) : cstr :=
  pad_left " " (width_dec (data width)) (fmt_u64 10 v).

(** [a / b] rounded to the nearest integer, ties to even. *)
Definition round_half_even (a b : Z) : Z :=
  let q := a / b in
  let r := a mod b in
  if 2 * r <? b then q
  else if b <? 2 * r then q + 1
  else if Z.even q then q else q + 1.

(** [v * 1.0]: the binary64 nearest to [v] (53 bits of precision), as the
    integer it denotes. *)
Definition double_of_uint64 (v : Z) : Z :=
  if v <? 2 ^ 53 then v
  else
    let e := Z.log2 v - 52 in
    round_half_even v (2 ^ e) * 2 ^ e.

(** [%w.1f] of the non-negative quotient [num / den]: the exact quotient
    rounded to one decimal place, ties to even, as glibc prints it in the
    default rounding mode.  Dividing a binary64 by a power of two is exact,
    and every [multi] of the table is one. *)
Definition fmt_f1 (w : nat) (num den : Z) : cstr :=
  let t := round_half_even (num * 10) den in
  pad_left " " w (fmt_u64 10 (t / 10) ++ ["."%char; digit_char (t mod 10)]).

(** ** Printing *)

Definition bit_length (v : Z) : nat :=
  if v <=? 15 then 4
  else if v <=? 255 then 8
  else if v <=? 65535 then 16
  else if v <=? 4294967295 then 32
  else 64.

(** The [while (len--)] loop: [str] holds the characters already stored at
    positions [len] and above. *)
Fixpoint print_binary_loop (zero_ch : ascii) (len : nat) (v : Z) (str : cstr)
  : cstr :=
  match len with
  | O => str
  | S len' =>
      let c := if Z.land v 1 =? 0 then zero_ch else "1"%char in
      print_binary_loop zero_ch len' (Z.shiftr v 1) (c :: str)
  end.

Definition print_binary (zero_ch : ascii) (v : Z) : cstr :=
  str "  " ++ print_binary_loop zero_ch (bit_length v) v [].

Definition print_size (v : Z) : cstr :=
  let multi_ := get_multiplier v in
  fmt_f1 6 (double_of_uint64 v) (multi (data multi_))
  ++ [suffix (data multi_)].

Definition print_number (zero_ch : ascii) (v : Z) (width : multipliers)
  (show_bin : bool) : cstr :=
  format_hex v width ++ str " " ++ format_decimal v width ++ str " "
  ++ print_size v
  ++ (if show_bin then print_binary zero_ch v else [])
  ++ [LF].

(** What [get_value] writes to [stderr] on the error [e]. *)
Definition error_message (s : cstr) (e : parse_error) : cstr :=
  match e with
  | BinaryTooLong => str "Binary number too big, max 64 bits." ++ [LF]
  | InvalidBinaryDigit =>
      str "Binary numbers can only contain 0 or 1." ++ [LF]
  | InvalidSuffix pos =>
      str "Error in value " ++ firstn (strlen s) s ++ str ":"
      ++ fmt_u64 10 (Z.of_nat pos) ++ [LF]
  end.

(** The two output streams and, once the process has ended, its status. *)
Record process : Type := mk_process {
  stdout : cstr;
  stderr : cstr;
  status : Z
}.

Definition EXIT_SUCCESS : Z := 0.
Definition EXIT_FAILURE : Z := 1.

(** [print_string]: what it appends to [stdout] and to [stderr]. *)
Definition print_string (zero_ch : ascii) (s : cstr) (width : multipliers)
  (show_bin : bool) : cstr * cstr :=
  match get_value s with
  | Err e => ([], error_message s e)
  | Ok v => (print_number zero_ch v width show_bin, [])
  end.

Definition values : list Z :=
  [8; 16; 64; 128; 256; 512;
   1 * KB; 4 * KB; 16 * KB; 64 * KB;
   1 * MB; 16 * MB; 64 * MB; 256 * MB; 512 * MB;
   1 * GB; 4 * GB;
   1 * TB;
   1 * PB;
   1 * EB;
   0].

(** [for (i = 0; values[i] != 0; i++)] *)
Fixpoint print_all_loop (zero_ch : ascii) (vs : list Z) (show_bin : bool)
  : cstr :=
  match vs with
  | [] => []
  | v :: rest =>
      if v =? 0 then []
      else print_number zero_ch v EXI show_bin
           ++ print_all_loop zero_ch rest show_bin
  end.

Definition print_all (zero_ch : ascii) (show_bin : bool) : cstr :=
  print_all_loop zero_ch values show_bin.

(** [strncmp (a, "-b", 2) == 0] *)
Definition has_flag (a : cstr) (letter : ascii) : bool :=
  Ascii.eqb (char_at a 0) "-" && Ascii.eqb (char_at a 1) letter.

(** [show_bin], [first] and [zero_ch] after the option test of [main]. *)
Definition mode_of (argv : list cstr) : bool * nat * ascii :=
  if (1 <? length argv)%nat then
    if has_flag (nth 1 argv []) "b" then (true, 2%nat, "."%char)
    else if has_flag (nth 1 argv []) "B" then (true, 2%nat, "0"%char)
    else (false, 1%nat, " "%char)
  else (false, 1%nat, " "%char).

(** The first loop of [main]: the widest magnitude, or the message of the
    first argument that does not parse. *)
Fixpoint width_pass (args : list cstr) (width : multipliers)
  : cstr + multipliers :=
  match args with
  | [] => inr width
  | a :: rest =>
      match get_value a with
      | Err e => inl (error_message a e)
      | Ok v =>
          let tmp_width := get_multiplier v in
          width_pass rest
            (if rank width <? rank tmp_width then tmp_width else width)
      end
  end.

(** The second loop of [main]. *)
Fixpoint print_pass (zero_ch : ascii) (args : list cstr)
  (width : multipliers) (show_bin : bool) : cstr * cstr :=
  match args with
  | [] => ([], [])
  | a :: rest =>
      let (o, e) := print_string zero_ch a width show_bin in
      let (os, es) := print_pass zero_ch rest width show_bin in
      (o ++ os, e ++ es)
  end.

Definition main (argv : list cstr) : process :=
  let '(show_bin, first, zero_ch) := mode_of argv in
  if (length argv <=? first)%nat then
    mk_process (print_all zero_ch show_bin) [] EXIT_SUCCESS
  else
    match width_pass (skipn first argv) BYTE with
    | inl msg => mk_process [] msg EXIT_FAILURE
    | inr width =>
        let (o, e) := print_pass zero_ch (skipn first argv) width show_bin in
        mk_process o e EXIT_SUCCESS
    end.

(** ** Vocabulary of the properties *)

(** [m] has the largest multiplier of the table that does not exceed
    [bound]. *)
Definition largest_multiplier_le (bound : Z) (m : multipliers) : Prop :=
  multi (data m) <= bound /\
  forall m', multi (data m') <= bound -> multi (data m') <= multi (data m).

Definition is_digit_in (base : Z) (c : ascii) : bool :=
  match digit_in base c with Some _ => true | None => false end.

Definition is_x (c : ascii) : bool := Ascii.eqb c "x" || Ascii.eqb c "X".

(** C integer constants without sign: [Some (base, ds)] when [s] is a
    decimal constant (no leading zero), an octal constant (leading zero) or
    a hexadecimal constant ([0x] or [0X] and at least one digit); [ds] are
    the characters that carry the value. *)
Definition literal_digits (s : cstr) : option (Z * cstr) :=
  if Ascii.eqb (char_at s 0) "0" then
    if is_x (char_at s 1) then
      match skipn 2 s with
      | [] => None
      | ds => if forallb (is_digit_in 16) ds then Some (16, ds) else None
      end
    else if forallb (is_digit_in 8) s then Some (8, s) else None
  else
    match s with
    | [] => None
    | _ => if forallb (is_digit_in 10) s then Some (10, s) else None
    end.

(** The digit loop without its range check, from the accumulator [acc]. *)
Definition fold_digits (base : Z) (ds : cstr) (acc : Z) : Z :=
  fold_left
    (fun a c => a * base + match digit_value c with Some d => d | None => 0 end)
    ds acc.

(** The number written by the digit string [ds], most significant first. *)
Definition number_of (base : Z) (ds : cstr) : Z := fold_digits base ds 0.

(** The characters between the [0b] prefix and the terminator. *)
Definition binary_digits (s : cstr) : cstr :=
  firstn (strlen s - 2) (skipn 2 s).

Definition is_bit (c : ascii) : bool := Ascii.eqb c "0" || Ascii.eqb c "1".

(** [tail] does not continue a digit string in [base]. *)
Definition stops (base : Z) (tail : cstr) : bool :=
  match tail with
  | [] => true
  | c :: _ => negb (is_digit_in base c)
  end.

Definition is_b (c : ascii) : bool := Ascii.eqb c "b" || Ascii.eqb c "B".

(** The lower-case form of an upper-case letter. *)
Definition lower (c : ascii) : ascii := ascii_of_N (N_of_ascii c + 32).

(** [c] is the letter of the magnitude [m], in either case. *)
Definition is_letter_of (m : multipliers) (c : ascii) : Prop :=
  m <> BYTE /\ (c = suffix (data m) \/ c = lower (suffix (data m))).

(** The value of a string of bits, most significant first. *)
Definition bits_value (ds : cstr) : Z :=
  fold_left (fun a c => 2 * a + (if Ascii.eqb c "1" then 1 else 0)) ds 0.

(** The number denoted by a list of digit values, most significant first. *)
Definition digits_value (base : Z) (ds : list Z) (acc : Z) : Z :=
  fold_left (fun a d => a * base + d) ds acc.

(** Moving [endptr] when [n] white-space characters are put in front: a
    null [endptr] says that nothing was converted. *)
Definition shift_endptr (n : nat) (r : strtoull_result) : strtoull_result :=
  match endptr r with
  | O => r
  | S _ => mk_strtoull (value r) (n + endptr r)
  end.

(** The bit field printed for [v] on [len] positions, leftmost first. *)
Definition bit_string (zero_ch : ascii) (v : Z) (len : nat) : cstr :=
  map (fun i => if Z.testbit v (Z.of_nat (len - 1 - i)) then "1"%char
                else zero_ch)
      (seq 0 len).

(** The arguments of [main] that are values: those from [first] on. *)
Definition value_args (argv : list cstr) : list cstr :=
  skipn (snd (fst (mode_of argv))) argv.

Definition show_bin_of (argv : list cstr) : bool := fst (fst (mode_of argv)).

Definition zero_ch_of (argv : list cstr) : ascii := snd (mode_of argv).

(** [args] parse, in order, to the values [vs]. *)
Definition parse_to (args : list cstr) (vs : list Z) : Prop :=
  Forall2 (fun a v => get_value a = Ok v) args vs.

(** The widest magnitude among [vs], starting from [width]. *)
Definition max_width (vs : list Z) (width : multipliers) : multipliers :=
  fold_left
    (fun w v => if rank w <? rank (get_multiplier v) then get_multiplier v else w)
    vs width.

(** The line printed for [v]: hexadecimal and decimal columns at the
    widths of [width], the size column from the magnitude of [v] itself,
    and the bit field when asked for. *)
Definition value_line (zero_ch : ascii) (show_bin : bool)
  (width : multipliers) (v : Z) : cstr :=
  str "0x" ++ pad_left "0" (width_hex (data width)) (fmt_u64 16 v)
  ++ str " " ++ pad_left " " (width_dec (data width)) (fmt_u64 10 v)
  ++ str " "
  ++ fmt_f1 6 (double_of_uint64 v) (multi (data (get_multiplier v)))
  ++ [suffix (data (get_multiplier v))]
  ++ (if show_bin then str "  " ++ bit_string zero_ch v (bit_length v) else [])
  ++ [LF].

(** The values of the demonstration table. *)
Definition demo_values : list Z :=
  [8; 16; 64; 128; 256; 512; 1024; 4096; 16384; 65536; 1048576; 16777216;
   67108864; 268435456; 536870912; 1073741824; 4294967296; 1099511627776;
   1125899906842624; 1152921504606846976].

Definition count_lines (out : cstr) : nat :=
  length (filter (fun c => Ascii.eqb c LF) out).

(** Two results of the width loop agree: both fail, or both give the same
    width. *)
Definition same_width (r r' : cstr + multipliers) : Prop :=
  match r, r' with
  | inr w, inr w' => w = w'
  | inl _, inl _ => True
  | _, _ => False
  end.

(** The text of the demonstration table, line by line without the
    newline: ["0x%016llx %20llu %6.1f%c"] of each value. *)
Definition demo_table_text : list string :=
  ["0x0000000000000008                    8    8.0b"%string;
   "0x0000000000000010                   16   16.0b"%string;
   "0x0000000000000040                   64   64.0b"%string;
   "0x0000000000000080                  128  128.0b"%string;
   "0x0000000000000100                  256  256.0b"%string;
   "0x0000000000000200                  512  512.0b"%string;
   "0x0000000000000400                 1024    1.0K"%string;
   "0x0000000000001000                 4096    4.0K"%string;
   "0x0000000000004000                16384   16.0K"%string;
   "0x0000000000010000                65536   64.0K"%string;
   "0x0000000000100000              1048576    1.0M"%string;
   "0x0000000001000000             16777216   16.0M"%string;
   "0x0000000004000000             67108864   64.0M"%string;
   "0x0000000010000000            268435456  256.0M"%string;
   "0x0000000020000000            536870912  512.0M"%string;
   "0x0000000040000000           1073741824    1.0G"%string;
   "0x0000000100000000           4294967296    4.0G"%string;
   "0x0000010000000000        1099511627776    1.0T"%string;
   "0x0004000000000000     1125899906842624    1.0P"%string;
   "0x1000000000000000  1152921504606846976    1.0E"%string].

(** The bit fields of the table values, clear bits written as dots. *)
Definition demo_bit_fields : list string :=
  ["1..."%string;
   "...1...."%string;
   ".1......"%string;
   "1......."%string;
   ".......1........"%string;
   "......1........."%string;
   ".....1.........."%string;
   "...1............"%string;
   ".1.............."%string;
   "...............1................"%string;
   "...........1...................."%string;
   ".......1........................"%string;
   ".....1.........................."%string;
   "...1............................"%string;
   "..1............................."%string;
   ".1.............................."%string;
   "...............................1................................"%string;
   ".......................1........................................"%string;
   ".............1.................................................."%string;
   "...1............................................................"%string].

(** The table as it is expected on [stdout]: each line, then the bit field
    with [zero_ch] for its clear bits when [show_bin] is set, then a
    newline. *)
Definition table_text (show_bin : bool) (zero_ch : ascii) : cstr :=
  concat
    (map (fun lb : string * string =>
            str (fst lb)
            ++ (if show_bin
                then str "  "
                     ++ map (fun c => if Ascii.eqb c "." then zero_ch else c)
                          (str (snd lb))
                else [])
            ++ [LF])
         (combine demo_table_text demo_bit_fields)).

(** The lines of an output, without their newlines; [cur] holds the
    characters of the current line, last first. *)
Fixpoint split_lines (out cur : cstr) : list cstr :=
  match out with
  | [] => match cur with [] => [] | _ => [rev cur] end
  | c :: rest =>
      if Ascii.eqb c LF then rev cur :: split_lines rest []
      else split_lines rest (c :: cur)
  end.

Definition lines_of (out : cstr) : list cstr := split_lines out [].

(** A printed line without bit field and without its newline. *)
Definition value_line_body (width : multipliers) (v : Z) : cstr :=
  str "0x" ++ pad_left "0" (width_hex (data width)) (fmt_u64 16 v)
  ++ str " " ++ pad_left " " (width_dec (data width)) (fmt_u64 10 v)
  ++ str " "
  ++ fmt_f1 6 (double_of_uint64 v) (multi (data (get_multiplier v)))
  ++ [suffix (data (get_multiplier v))].

(** A character of the decimal column: a blank or a decimal digit. *)
Definition is_blank_or_digit (c : ascii) : bool :=
  Ascii.eqb c " " || is_digit_in 10 c.

(** ** Properties *)

(** *** The magnitude classifier *)

Lemma get_multiplier_cases (v : Z) :
  (v < 1024 /\ get_multiplier v = BYTE) \/
  (1024 <= v < 1048576 /\ get_multiplier v = KILO) \/
  (1048576 <= v < 1073741824 /\ get_multiplier v = MEGA) \/
  (1073741824 <= v < 1099511627776 /\ get_multiplier v = GIGA) \/
  (1099511627776 <= v < 1125899906842624 /\ get_multiplier v = TERA) \/
  (1125899906842624 <= v < 1152921504606846976 /\ get_multiplier v = PETA) \/
  (1152921504606846976 <= v /\ get_multiplier v = EXI).
Proof.
  unfold get_multiplier, EB, PB, TB, GB, MB, KB.
  repeat match goal with
         | |- context [?a <? ?b] =>
             destruct (Z.ltb_spec a b); [left; split; [lia | reflexivity] | right]
         end.
  split; [lia | reflexivity].
Qed.

Lemma multi_power (m : multipliers) : multi (data m) = 1024 ^ rank m.
Proof. destruct m; reflexivity. Qed.

(** C1, as stated, fails: 1023 is below the first threshold and is a Byte
    value, although the Kilo multiplier 1024 does not exceed 1023 + 1. *)
Lemma get_multiplier_not_largest_le_succ :
  is_uint64 1023 /\ ~ largest_multiplier_le (1023 + 1) (get_multiplier 1023).
Proof.
  split; [unfold is_uint64, UINT64_MAX; lia |].
  intros [_ H]. specialize (H KILO). cbn in H. lia.
Qed.

(** C1 (amended): the classifier is monotonic non-decreasing, and the
    band it chooses has the largest of the seven multipliers that does not
    exceed the value itself (for the value 0, the Byte band). *)
Theorem get_multiplier_monotone_largest (v w : Z) :
  is_uint64 v -> is_uint64 w -> v <= w ->
  rank (get_multiplier v) <= rank (get_multiplier w) /\
  largest_multiplier_le (Z.max v 1) (get_multiplier v).
Proof.
  unfold is_uint64, largest_multiplier_le. intros Hv Hw Hle.
  destruct (get_multiplier_cases v) as [H|[H|[H|[H|[H|[H|H]]]]]];
    destruct H as [Hb ->].
  all: split;
    [ destruct (get_multiplier_cases w) as [G|[G|[G|[G|[G|[G|G]]]]]];
      destruct G as [Gb ->]; simpl; lia
    | split; [ cbn; lia | intros m'; destruct m'; cbn; lia ] ].
Qed.

Lemma get_multiplier_monotone_largest_witness :
  rank (get_multiplier 1023) <= rank (get_multiplier 1024) /\
  largest_multiplier_le (Z.max 1023 1) (get_multiplier 1023).
Proof.
  apply (get_multiplier_monotone_largest 1023 1024);
    unfold is_uint64, UINT64_MAX; lia.
Defined.

(** *** Characters and [strtoull] *)

Lemma digit_value_plain (c : ascii) (d : Z) :
  digit_value c = Some d ->
  isspace c = false /\ Ascii.eqb c "-" = false /\ Ascii.eqb c "+" = false /\
  Ascii.eqb c NUL = false.
Proof.
  destruct c as [[] [] [] [] [] [] [] []]; vm_compute; intros H;
    solve [discriminate H | repeat split].
Qed.

Lemma is_digit_in_value (base : Z) (c : ascii) :
  is_digit_in base c = true ->
  exists d, digit_value c = Some d /\ digit_in base c = Some d /\ 0 <= d < base.
Proof.
  unfold is_digit_in, digit_in. destruct (digit_value c) as [d|] eqn:E; [|discriminate].
  destruct (Z.ltb_spec d base); [|discriminate]. intros _.
  exists d. repeat split; trivial.
  unfold digit_value in E.
  assert (0 <= code c) by (unfold code; lia).
  repeat match type of E with
         | (if ?b then _ else _) = _ => destruct b eqn:?
         end; inversion E; lia.
Qed.

Lemma fold_digits_ge (base : Z) (ds : cstr) (acc : Z) :
  1 <= base -> 0 <= acc -> acc <= fold_digits base ds acc.
Proof.
  intros Hb. revert acc. unfold fold_digits.
  induction ds as [|c ds IH]; intros acc Hacc; simpl; [lia|].
  assert (0 <= match digit_value c with Some d => d | None => 0 end).
  { destruct (digit_value c) as [d|] eqn:E; [|lia].
    unfold digit_value in E. assert (0 <= code c) by (unfold code; lia).
    repeat match type of E with
           | (if ?b then _ else _) = _ => destruct b eqn:?
           end; inversion E; lia. }
  etransitivity; [|apply IH]; nia.
Qed.

Lemma scan_digits_overflowed (base : Z) (ds tail : cstr) (acc : Z) :
  forallb (is_digit_in base) ds = true -> stops base tail = true ->
  exists a, scan_digits base (ds ++ tail) acc true = (a, true, length ds).
Proof.
  intros Hds Htail. revert acc.
  induction ds as [|c ds IH]; intros acc; simpl.
  - destruct tail as [|c tail]; [eexists; reflexivity|]. simpl in *.
    unfold is_digit_in in Htail.
    destruct (digit_in base c); [discriminate|eexists; reflexivity].
  - simpl in Hds. apply andb_prop in Hds as [Hc Hds].
    destruct (is_digit_in_value _ _ Hc) as (d & _ & -> & _).
    destruct (IH Hds acc) as [a ->]. eexists; reflexivity.
Qed.

(** On a digit string the loop consumes every digit; it reports overflow
    exactly when the number leaves the range. *)
Lemma scan_digits_digits (base : Z) (ds tail : cstr) (acc : Z) :
  1 <= base -> 0 <= acc <= UINT64_MAX ->
  forallb (is_digit_in base) ds = true -> stops base tail = true ->
  exists a,
    scan_digits base (ds ++ tail) acc false
    = (a, UINT64_MAX <? fold_digits base ds acc, length ds) /\
    (fold_digits base ds acc <= UINT64_MAX -> a = fold_digits base ds acc).
Proof.
  intros Hb Hacc Hds Htail. revert acc Hacc.
  induction ds as [|c ds IH]; intros acc Hacc.
  - simpl. exists acc. split; [|reflexivity].
    replace (UINT64_MAX <? acc) with false by (symmetry; apply Z.ltb_ge; lia).
    destruct tail as [|c tail]; [reflexivity|]. simpl in *.
    unfold is_digit_in in Htail.
    destruct (digit_in base c); [discriminate|reflexivity].
  - simpl in Hds. apply andb_prop in Hds as [Hc Hds].
    destruct (is_digit_in_value _ _ Hc) as (d & Hv & Hd & Hr).
    simpl app. simpl scan_digits. rewrite Hd.
    assert (Hcons : fold_digits base (c :: ds) acc
                    = fold_digits base ds (acc * base + d))
      by (unfold fold_digits; simpl; rewrite Hv; reflexivity).
    rewrite Hcons.
    simpl orb. destruct (Z.ltb_spec UINT64_MAX (acc * base + d)) as [Hov|Hin].
    + destruct (scan_digits_overflowed base ds tail acc Hds Htail) as [a ->].
      pose proof (fold_digits_ge base ds (acc * base + d) Hb ltac:(nia)).
      exists a. split; [|lia].
      replace (UINT64_MAX <? fold_digits base ds (acc * base + d)) with true
        by (symmetry; apply Z.ltb_lt; lia).
      reflexivity.
    + destruct (IH Hds (acc * base + d) ltac:(nia)) as (a & -> & Ha).
      exists a. split; [reflexivity|exact Ha].
Qed.

Lemma strtoull_eq (s : cstr) (ws sg pre n : nat) (neg o : bool) (base a : Z) :
  skip_space s = ws ->
  sign_of (skipn ws s) = (neg, sg) ->
  base_of (skipn sg (skipn ws s)) = (base, pre) ->
  scan_digits base (skipn pre (skipn sg (skipn ws s))) 0 false = (a, o, S n) ->
  strtoull s
  = mk_strtoull (if o then UINT64_MAX else if neg then wrap64 (- a) else a)
      (ws + sg + pre + S n).
Proof.
  intros H1 H2 H3 H4. unfold strtoull. rewrite H1, H2, H3, H4. reflexivity.
Qed.

Lemma digit_start (base : Z) (c : ascii) (t : cstr) :
  is_digit_in base c = true ->
  skip_space (c :: t) = 0%nat /\ sign_of (c :: t) = (false, 0%nat).
Proof.
  intros H. destruct (is_digit_in_value _ _ H) as (d & Hv & _).
  destruct (digit_value_plain _ _ Hv) as (Hs & Hm & Hp & _).
  simpl. rewrite Hs, Hm, Hp. split; reflexivity.
Qed.

Lemma min_of_scan (a total : Z) :
  (total <= UINT64_MAX -> a = total) ->
  (if UINT64_MAX <? total then UINT64_MAX else a) = Z.min total UINT64_MAX.
Proof.
  intros H. destruct (Z.ltb_spec UINT64_MAX total); [lia|]. rewrite H; lia.
Qed.

(** [strtoull] reads a C integer constant in full when what follows does
    not continue it, and saturates at [ULLONG_MAX]. *)
Lemma strtoull_literal (lit tail ds : cstr) (base : Z) :
  literal_digits lit = Some (base, ds) ->
  stops base tail = true ->
  (lit = ["0"%char] -> is_x (char_at tail 0) = false) ->
  strtoull (lit ++ tail)
  = mk_strtoull (Z.min (number_of base ds) UINT64_MAX) (length lit).
Proof.
  unfold literal_digits, number_of. intros Hlit Htail Hx.
  assert (Hmax : 0 <= 0 <= UINT64_MAX) by (unfold UINT64_MAX; lia).
  destruct lit as [|c0 lit]; [vm_compute in Hlit; discriminate|].
  unfold char_at in Hlit. change (nth 0 (c0 :: lit) NUL) with c0 in Hlit.
  destruct (Ascii.eqb_spec c0 "0") as [->|Hc0].
  - destruct (is_x (nth 1 ("0"%char :: lit) NUL)) eqn:Ex.
    + (* hexadecimal *)
      destruct lit as [|c1 lit]; [vm_compute in Ex; discriminate|]. simpl in Ex.
      destruct lit as [|c2 lit]; cbn [skipn] in Hlit; [discriminate|].
      destruct (forallb (is_digit_in 16) (c2 :: lit)) eqn:Hds; [|discriminate].
      inversion Hlit; subst base ds; clear Hlit.
      destruct (scan_digits_digits 16 (c2 :: lit) tail 0 ltac:(lia) Hmax Hds Htail)
        as (a & Hscan & Ha).
      rewrite (strtoull_eq _ 0 0 2 (length lit) false
                 (UINT64_MAX <? fold_digits 16 (c2 :: lit) 0) 16 a);
        try reflexivity.
      * rewrite (min_of_scan _ _ Ha). reflexivity.
      * unfold base_of, char_at. simpl. unfold is_x in Ex. rewrite Ex. reflexivity.
      * exact Hscan.
    + (* octal *)
      destruct (forallb (is_digit_in 8) ("0"%char :: lit)) eqn:Hds; [|discriminate].
      inversion Hlit; subst base ds; clear Hlit.
      destruct (scan_digits_digits 8 ("0"%char :: lit) tail 0 ltac:(lia) Hmax Hds Htail)
        as (a & Hscan & Ha).
      rewrite (strtoull_eq _ 0 0 0 (length lit) false
                 (UINT64_MAX <? fold_digits 8 ("0"%char :: lit) 0) 8 a);
        try reflexivity.
      * rewrite (min_of_scan _ _ Ha). reflexivity.
      * unfold base_of, char_at. simpl.
        destruct lit as [|c1 lit]; simpl.
        -- specialize (Hx eq_refl). unfold char_at in Hx.
           destruct tail; simpl in *; unfold is_x in Hx; try rewrite Hx; reflexivity.
        -- simpl in Ex. unfold is_x in Ex. rewrite Ex. reflexivity.
      * exact Hscan.
  - (* decimal *)
    destruct (forallb (is_digit_in 10) (c0 :: lit)) eqn:Hds; [|discriminate].
    inversion Hlit; subst base ds; clear Hlit.
    destruct (scan_digits_digits 10 (c0 :: lit) tail 0 ltac:(lia) Hmax Hds Htail)
      as (a & Hscan & Ha).
    simpl in Hds. apply andb_prop in Hds as [Hd0 _].
    destruct (digit_start 10 c0 (lit ++ tail) Hd0) as [Hsp Hsg].
    rewrite (strtoull_eq _ 0 0 0 (length lit) false
               (UINT64_MAX <? fold_digits 10 (c0 :: lit) 0) 10 a);
      try reflexivity; try assumption.
    + rewrite (min_of_scan _ _ Ha). reflexivity.
    + unfold base_of, char_at. simpl.
      destruct (Ascii.eqb_spec c0 "0"); [contradiction|reflexivity].
Qed.

(** *** Literals followed by other characters *)

Lemma literal_base (lit ds : cstr) (base : Z) :
  literal_digits lit = Some (base, ds) -> base = 8 \/ base = 10 \/ base = 16.
Proof.
  unfold literal_digits. intros H.
  repeat match type of H with
         | (if ?b then _ else _) = _ => destruct b
         | match ?l with [] => _ | _ :: _ => _ end = _ => destruct l
         end; inversion H; auto.
Qed.

Lemma octal_digit_not_b (c : ascii) :
  is_digit_in 8 c = true -> is_b c = false.
Proof.
  intros H. unfold is_b.
  destruct (Ascii.eqb_spec c "b") as [->|_]; [vm_compute in H; discriminate|].
  destruct (Ascii.eqb_spec c "B") as [->|_]; [vm_compute in H; discriminate|].
  reflexivity.
Qed.

Lemma x_not_b (c : ascii) : is_x c = true -> is_b c = false.
Proof.
  unfold is_x, is_b.
  destruct (Ascii.eqb_spec c "x") as [->|_]; [reflexivity|].
  destruct (Ascii.eqb_spec c "X") as [->|_]; [reflexivity|discriminate].
Qed.

(** A constant followed by anything but [b] after a lone [0] is not taken
    for a binary literal. *)
Lemma literal_not_binary (lit ds tail : cstr) (base : Z) :
  literal_digits lit = Some (base, ds) ->
  (lit = ["0"%char] -> is_b (char_at tail 0) = false) ->
  is_binary_literal (lit ++ tail) = false.
Proof.
  unfold literal_digits, is_binary_literal. intros Hlit Hb.
  destruct lit as [|c0 lit]; [vm_compute in Hlit; discriminate|].
  unfold char_at in *. change (nth 0 (c0 :: lit) NUL) with c0 in Hlit.
  change (nth 0 ((c0 :: lit) ++ tail) NUL) with c0.
  destruct (Ascii.eqb_spec c0 "0") as [->|_];
    [|rewrite andb_false_r; reflexivity].
  fold (is_b (nth 1 (("0"%char :: lit) ++ tail) NUL)).
  replace (is_b (nth 1 (("0"%char :: lit) ++ tail) NUL)) with false;
    [apply andb_false_r|].
  symmetry. destruct lit as [|c1 lit].
  - simpl. apply Hb. reflexivity.
  - change (nth 1 (("0"%char :: c1 :: lit) ++ tail) NUL) with c1.
    change (nth 1 ("0"%char :: c1 :: lit) NUL) with c1 in Hlit.
    destruct (is_x c1) eqn:Ex; [apply x_not_b; exact Ex|].
    destruct (forallb (is_digit_in 8) ("0"%char :: c1 :: lit)) eqn:Hds;
      [|discriminate].
    change (forallb (is_digit_in 8) ("0"%char :: c1 :: lit))
      with (is_digit_in 8 c1 && forallb (is_digit_in 8) lit) in Hds.
    apply andb_prop in Hds as [Hc1 _]. apply octal_digit_not_b. exact Hc1.
Qed.

Lemma char_at_app_length (lit tail : cstr) :
  char_at (lit ++ tail) (length lit) = char_at tail 0.
Proof.
  unfold char_at. rewrite app_nth2 by lia. rewrite Nat.sub_diag. reflexivity.
Qed.

(** What [get_value] does with a constant followed by a character that does
    not continue it, whatever comes after that character. *)
Lemma get_value_literal_tail (lit ds rest : cstr) (base : Z) (c : ascii) :
  literal_digits lit = Some (base, ds) ->
  is_digit_in base c = false ->
  (lit = ["0"%char] -> is_x c = false /\ is_b c = false) ->
  get_value (lit ++ c :: rest)
  = if Ascii.eqb c NUL then Ok (Z.min (number_of base ds) UINT64_MAX)
    else match suffix_multiplier c with
         | Some m =>
             Ok (wrap64 (Z.min (number_of base ds) UINT64_MAX * multi (data m)))
         | None => Err (InvalidSuffix (length lit))
         end.
Proof.
  intros Hlit Hc H0. unfold get_value.
  rewrite (literal_not_binary lit ds (c :: rest) base Hlit)
    by (intros E; apply H0; exact E).
  rewrite (strtoull_literal lit (c :: rest) ds base Hlit).
  - simpl value. simpl endptr. rewrite char_at_app_length. reflexivity.
  - simpl. rewrite Hc. reflexivity.
  - intros E. apply H0. exact E.
Qed.

Lemma get_value_literal (lit ds : cstr) (base : Z) :
  literal_digits lit = Some (base, ds) ->
  strtoull lit = mk_strtoull (Z.min (number_of base ds) UINT64_MAX) (length lit).
Proof.
  intros Hlit. rewrite <- (app_nil_r lit) at 1.
  apply (strtoull_literal lit [] ds base Hlit); reflexivity.
Qed.

Lemma letter_not_digit (m : multipliers) (c : ascii) (base : Z) :
  is_letter_of m c -> base = 8 \/ base = 10 \/ base = 16 ->
  (base = 16 -> m <> EXI) ->
  is_digit_in base c = false /\ is_x c = false /\ is_b c = false /\
  Ascii.eqb c NUL = false /\ suffix_multiplier c = Some m.
Proof.
  intros [Hm [-> | ->]] Hb Hx;
    destruct m; try contradiction;
    destruct Hb as [-> | [-> | ->]];
    try (exfalso; apply Hx; reflexivity);
    vm_compute; repeat split.
Qed.

(** *** Magnitude suffixes *)

Example get_value_1K : get_value (str "1K") = Ok 1024.
Proof. reflexivity. Qed.

Example get_value_1M : get_value (str "1M") = Ok (1024 * 1024).
Proof. reflexivity. Qed.

Example get_value_2G : get_value (str "2G") = Ok (2 * 1024 ^ 3).
Proof. reflexivity. Qed.

Example get_value_lower_case :
  map get_value [str "3k"; str "3m"; str "3g"; str "3t"; str "3p"; str "3e"]
  = map get_value [str "3K"; str "3M"; str "3G"; str "3T"; str "3P"; str "3E"].
Proof. reflexivity. Qed.

(** C2, as stated, fails on a hexadecimal constant followed by E: the
    letter is read as one more hexadecimal digit, so [0x1] followed by [E]
    is 30 and not 1 * 1024^6. *)
Lemma hex_literal_E_is_a_digit :
  literal_digits (str "0x1") = Some (16, str "1") /\
  is_letter_of EXI "E" /\
  value (strtoull (str "0x1")) = 1 /\
  get_value (str "0x1" ++ ["E"%char]) = Ok 30 /\
  Ok 30 <> Ok (wrap64 (value (strtoull (str "0x1")) * 1024 ^ rank EXI)).
Proof.
  split; [reflexivity|]. split; [split; [discriminate | left; reflexivity]|].
  split; [reflexivity|]. split; [reflexivity | discriminate].
Qed.

(** C2 (amended): a decimal or octal constant followed by exactly one of
    the letters K/k, M/m, G/g, T/t, P/p, E/e, and a hexadecimal constant
    followed by exactly one of K/k, M/m, G/g, T/t, P/p, parses to the
    parsed integer (the constant's number, saturated at 2^64-1) times
    1024^1 .. 1024^6 respectively, as an unsigned 64-bit product, the same
    for both cases of the letter. *)
Theorem get_value_suffix_multiplies
  (lit ds : cstr) (base : Z) (m : multipliers) (c : ascii) :
  literal_digits lit = Some (base, ds) ->
  is_letter_of m c ->
  (base = 16 -> m <> EXI) ->
  value (strtoull lit) = Z.min (number_of base ds) UINT64_MAX /\
  get_value (lit ++ [c]) = Ok (wrap64 (value (strtoull lit) * 1024 ^ rank m)).
Proof.
  intros Hlit Hc Hx.
  destruct (letter_not_digit m c base Hc (literal_base _ _ _ Hlit) Hx)
    as (Hd & Hnx & Hnb & Hnul & Hm).
  rewrite (get_value_literal lit ds base Hlit). simpl value.
  split; [reflexivity|].
  rewrite (get_value_literal_tail lit ds [] base c Hlit Hd) by (intros _; auto).
  rewrite Hnul, Hm, multi_power. reflexivity.
Qed.

Lemma get_value_suffix_multiplies_witness :
  value (strtoull (str "2")) = Z.min (number_of 10 (str "2")) UINT64_MAX /\
  get_value (str "2" ++ ["g"%char])
  = Ok (wrap64 (value (strtoull (str "2")) * 1024 ^ rank GIGA)).
Proof.
  apply (get_value_suffix_multiplies (str "2") (str "2") 10 GIGA "g").
  - reflexivity.
  - split; [discriminate | right; reflexivity].
  - intros H; discriminate H.
Defined.

(** C10: whenever the numeric part is followed by a magnitude letter, the
    result is the product of the parsed integer and the letter's power of
    1024 modulo 2^64; the parse succeeds whatever the size of the product,
    and a product of 2^64 or more comes back wrapped.  In particular
    ["16E"] parses to 0. *)
Theorem get_value_suffix_wraps (s : cstr) (m : multipliers) :
  is_binary_literal s = false ->
  suffix_multiplier (char_at s (endptr (strtoull s))) = Some m ->
  get_value s = Ok ((value (strtoull s) * 1024 ^ rank m) mod 2 ^ 64) /\
  (2 ^ 64 <= value (strtoull s) * 1024 ^ rank m ->
   get_value s <> Ok (value (strtoull s) * 1024 ^ rank m)).
Proof.
  intros Hb Hm. unfold get_value. rewrite Hb, Hm.
  assert (Hnul : Ascii.eqb (char_at s (endptr (strtoull s))) NUL = false).
  { destruct (Ascii.eqb_spec (char_at s (endptr (strtoull s))) NUL) as [E|];
      [rewrite E in Hm; discriminate Hm | reflexivity]. }
  rewrite Hnul, multi_power. unfold wrap64.
  split; [reflexivity|].
  intros Hbig Heq. inversion Heq as [Hmod].
  pose proof (Z.mod_pos_bound (value (strtoull s) * 1024 ^ rank m) (2 ^ 64)
                ltac:(lia)).
  lia.
Qed.

Lemma get_value_suffix_wraps_witness :
  get_value (str "16E") = Ok 0 /\
  (2 ^ 64 <= 16 * 1024 ^ 6 -> get_value (str "16E") <> Ok (16 * 1024 ^ 6)).
Proof.
  apply (get_value_suffix_wraps (str "16E") EXI); reflexivity.
Defined.

(** *** Characters after the numeric part *)

(** C4, as stated, fails: two characters after the numeric part are
    accepted when the first is a magnitude letter. *)
Lemma multi_character_suffix_accepted :
  is_binary_literal (str "5KB") = false /\
  strtoull (str "5KB") = mk_strtoull 5 1 /\
  (strlen (str "5KB") - endptr (strtoull (str "5KB")) = 2)%nat /\
  get_value (str "5KB") = Ok 5120.
Proof. repeat split. Qed.

(** C4 (amended): for a non-binary argument the only parse error is
    InvalidSuffix, raised exactly when the character at which the numeric
    part ends is neither the terminator nor a magnitude letter, and
    reporting that character's position.  After a constant, a character
    that is not a magnitude letter fails at the constant's length (so
    ["5X"] fails at 1), whatever follows it; a magnitude letter is applied
    and the characters after it are not examined. *)
Theorem get_value_trailing_character :
  (forall (s : cstr),
      is_binary_literal s = false ->
      let c := char_at s (endptr (strtoull s)) in
      (forall e, get_value s = Err e -> e = InvalidSuffix (endptr (strtoull s))) /\
      (get_value s = Err (InvalidSuffix (endptr (strtoull s)))
       <-> c <> NUL /\ suffix_multiplier c = None)) /\
  (forall (lit ds rest : cstr) (base : Z) (c : ascii),
      literal_digits lit = Some (base, ds) ->
      is_digit_in base c = false -> c <> NUL ->
      (lit = ["0"%char] -> is_x c = false /\ is_b c = false) ->
      match suffix_multiplier c with
      | None => get_value (lit ++ c :: rest) = Err (InvalidSuffix (length lit))
      | Some m =>
          get_value (lit ++ c :: rest)
          = Ok (wrap64 (value (strtoull lit) * multi (data m)))
      end).
Proof.
  split.
  - intros s Hb c. unfold get_value. rewrite Hb. fold c.
    destruct (Ascii.eqb_spec c NUL) as [E|E].
    + split; [intros e H; discriminate H|].
      split; [intros H; discriminate H | intros [H _]; contradiction].
    + destruct (suffix_multiplier c) as [m|].
      * split; [intros e H; discriminate H|].
        split; [intros H; discriminate H | intros [_ H]; discriminate H].
      * split; [intros e H; inversion H; reflexivity|].
        split; [intros _; split; [exact E | reflexivity] | reflexivity].
  - intros lit ds rest base c Hlit Hd Hnul H0.
    rewrite (get_value_literal_tail lit ds rest base c Hlit Hd H0).
    rewrite (get_value_literal lit ds base Hlit). simpl value.
    destruct (Ascii.eqb_spec c NUL) as [E|_]; [contradiction|].
    destruct (suffix_multiplier c); reflexivity.
Qed.

Lemma get_value_trailing_character_witness :
  get_value (str "5" ++ "X"%char :: []) = Err (InvalidSuffix 1) /\
  get_value (str "5" ++ "K"%char :: str "B") = Ok 5120 /\
  (forall e, get_value (str "5X") = Err e -> e = InvalidSuffix 1).
Proof.
  split; [|split].
  - apply (proj2 get_value_trailing_character (str "5") (str "5") [] 10 "X"%char);
      try reflexivity; [intros H; discriminate H | intros H; discriminate H].
  - apply (proj2 get_value_trailing_character (str "5") (str "5") (str "B") 10 "K"%char);
      try reflexivity; [intros H; discriminate H | intros H; discriminate H].
  - apply (proj1 get_value_trailing_character (str "5X")). reflexivity.
Defined.

(** *** Binary literals *)

Lemma strlen_le_length (s : cstr) : (strlen s <= length s)%nat.
Proof.
  induction s as [|c s IH]; simpl; [lia|].
  destruct (Ascii.eqb c NUL); lia.
Qed.

Lemma lor_pow2 (v k : Z) :
  0 <= k -> 0 <= v < 2 ^ k -> Z.lor v (2 ^ k) = v + 2 ^ k.
Proof.
  intros Hk Hv. rewrite <- Z.add_lor_land.
  assert (E : Z.land v (2 ^ k) = 0); [|rewrite E; lia].
  apply Z.bits_inj'. intros n Hn.
  rewrite Z.land_spec, Z.bits_0, Z.pow2_bits_eqb by lia.
  destruct (Z.eqb_spec k n) as [<-|_]; [|apply andb_false_r].
  rewrite andb_true_r.
  destruct (Z.eq_dec v 0) as [->|Hv0]; [apply Z.bits_0|].
  apply Z.bits_above_log2; [lia|]. apply Z.log2_lt_pow2; lia.
Qed.

Lemma firstn_snoc (s : cstr) (i : nat) :
  (2 <= i < length s)%nat ->
  firstn (i - 1) (skipn 2 s) = firstn (i - 2) (skipn 2 s) ++ [char_at s i].
Proof.
  intros Hi. destruct s as [|a [|b s]]; simpl in Hi; try lia.
  destruct i as [|[|n]]; try lia.
  unfold char_at. simpl skipn. simpl nth.
  replace (S (S n) - 1)%nat with (S n) by lia.
  replace (S (S n) - 2)%nat with n by lia.
  assert (Hn : (n < length s)%nat) by lia. clear Hi.
  revert n Hn. induction s as [|c s IH]; intros n Hn; simpl in Hn; [lia|].
  destruct n as [|n]; [reflexivity|].
  change (firstn (S (S n)) (c :: s)) with (c :: firstn (S n) s).
  rewrite IH by lia. reflexivity.
Qed.

Lemma bits_value_snoc (l : cstr) (c : ascii) :
  bits_value (l ++ [c])
  = 2 * bits_value l + (if Ascii.eqb c "1" then 1 else 0).
Proof. unfold bits_value. rewrite fold_left_app. reflexivity. Qed.

Lemma forallb_snoc (l : cstr) (c : ascii) :
  forallb is_bit (l ++ [c]) = forallb is_bit l && is_bit c.
Proof. rewrite forallb_app. simpl. rewrite andb_true_r. reflexivity. Qed.

(** The loop of [parse_binary] after [k] bits have been read into [v]. *)
Lemma parse_binary_loop_spec (s : cstr) (i k : nat) (v : Z) :
  (i < strlen s)%nat -> (i + k <= 65)%nat -> 0 <= v < 2 ^ Z.of_nat k ->
  parse_binary_loop s i (wrap64 (2 ^ Z.of_nat k)) v
  = if forallb is_bit (firstn (i - 1) (skipn 2 s))
    then Ok (v + 2 ^ Z.of_nat k * bits_value (firstn (i - 1) (skipn 2 s)))
    else Err InvalidBinaryDigit.
Proof.
  revert k v. induction i as [|i IH]; intros k v Hi Hk Hv.
  - cbn [parse_binary_loop Nat.sub firstn forallb].
    change (bits_value []) with 0. f_equal. lia.
  - cbn [parse_binary_loop].
    destruct (Nat.ltb_spec 1 (S i)) as [H1|H1].
    2:{ replace (S i - 1)%nat with 0%nat by lia. cbn [firstn forallb].
        change (bits_value []) with 0. f_equal. lia. }
    pose proof (strlen_le_length s) as Hlen.
    rewrite (firstn_snoc s (S i)) by lia.
    rewrite forallb_snoc, bits_value_snoc.
    replace (S i - 2)%nat with (i - 1)%nat by lia.
    assert (Hw : wrap64 (2 ^ Z.of_nat k) = 2 ^ Z.of_nat k).
    { unfold wrap64. apply Z.mod_small. split; [lia|].
      apply Z.pow_lt_mono_r; lia. }
    assert (Hs : wrap64 (Z.shiftl (wrap64 (2 ^ Z.of_nat k)) 1)
                 = wrap64 (2 ^ Z.of_nat (S k))).
    { rewrite Hw, Z.shiftl_mul_pow2 by lia. f_equal.
      rewrite Nat2Z.inj_succ, Z.pow_succ_r by lia. lia. }
    assert (Hp : 2 ^ Z.of_nat (S k) = 2 * 2 ^ Z.of_nat k)
      by (rewrite Nat2Z.inj_succ, Z.pow_succ_r by lia; reflexivity).
    rewrite Hs.
    change (is_bit (char_at s (S i)))
      with (Ascii.eqb (char_at s (S i)) "0" || Ascii.eqb (char_at s (S i)) "1").
    destruct (Ascii.eqb_spec (char_at s (S i)) "1") as [E1|E1].
    + rewrite Hw, lor_pow2 by lia.
      rewrite IH by lia. rewrite orb_true_r, andb_true_r.
      destruct (forallb is_bit (firstn (i - 1) (skipn 2 s))); [|reflexivity].
      f_equal. rewrite Hp. ring.
    + destruct (Ascii.eqb_spec (char_at s (S i)) "0") as [E0|E0]; simpl negb; cbv iota.
      * rewrite IH by lia. rewrite andb_true_r.
        destruct (forallb is_bit (firstn (i - 1) (skipn 2 s))); [|reflexivity].
        f_equal. rewrite Hp. ring.
      * rewrite andb_false_r. reflexivity.
Qed.

Lemma get_value_binary_cases (s : cstr) :
  is_binary_literal s = true ->
  get_value s
  = if (66 <? strlen s)%nat then Err BinaryTooLong
    else if forallb is_bit (binary_digits s)
         then Ok (bits_value (binary_digits s))
         else Err InvalidBinaryDigit.
Proof.
  intros Hb. unfold get_value. rewrite Hb. unfold parse_binary.
  destruct (Nat.ltb_spec 66 (strlen s)) as [|Hlen]; [reflexivity|].
  unfold is_binary_literal in Hb.
  apply andb_prop in Hb as [Hb _]. apply andb_prop in Hb as [Hb _].
  apply Nat.ltb_lt in Hb.
  change 1 with (wrap64 (2 ^ Z.of_nat 0)).
  rewrite parse_binary_loop_spec by (simpl; lia).
  unfold binary_digits. replace (strlen s - 1 - 1)%nat with (strlen s - 2)%nat by lia.
  destruct (forallb is_bit (firstn (strlen s - 2) (skipn 2 s))); [|reflexivity].
  f_equal. change (2 ^ Z.of_nat 0) with 1. lia.
Qed.

Example get_value_0b1010 : get_value (str "0b1010") = Ok 10.
Proof. reflexivity. Qed.

Example get_value_0b_65_ones :
  get_value (str "0b" ++ repeat "1"%char 65) = Err BinaryTooLong.
Proof. reflexivity. Qed.

Example get_value_0b102 : get_value (str "0b102") = Err InvalidBinaryDigit.
Proof. reflexivity. Qed.

(** C3, as stated, fails: a binary literal of more than 66 characters with
    a character that is neither 0 nor 1 is rejected for its length, not
    with InvalidBinaryDigit. *)
Lemma long_binary_with_bad_digit :
  is_binary_literal (str "0b" ++ repeat "2"%char 65) = true /\
  forallb is_bit (binary_digits (str "0b" ++ repeat "2"%char 65)) = false /\
  get_value (str "0b" ++ repeat "2"%char 65) = Err BinaryTooLong /\
  get_value (str "0b" ++ repeat "2"%char 65) <> Err InvalidBinaryDigit.
Proof.
  split; [reflexivity|]. split; [reflexivity|].
  split; [reflexivity | discriminate].
Qed.

(** C3 (amended): for a string with a 0b/0B prefix and length greater than
    2, parsing fails with BinaryTooLong exactly when the length including
    the prefix exceeds 66; it fails with InvalidBinaryDigit exactly when
    the length is at most 66 and some character after the prefix is neither
    0 nor 1; otherwise it returns the value of the characters after the
    prefix read as bits, most significant first. *)
Theorem get_value_binary (s : cstr) :
  is_binary_literal s = true ->
  (get_value s = Err BinaryTooLong <-> (66 < strlen s)%nat) /\
  (get_value s = Err InvalidBinaryDigit
   <-> (strlen s <= 66)%nat /\ forallb is_bit (binary_digits s) = false) /\
  ((strlen s <= 66)%nat -> forallb is_bit (binary_digits s) = true ->
   get_value s = Ok (bits_value (binary_digits s))).
Proof.
  intros Hb. rewrite (get_value_binary_cases s Hb).
  destruct (Nat.ltb_spec 66 (strlen s)) as [Hlen|Hlen].
  - split; [split; [intros _; exact Hlen | reflexivity]|].
    split; [split; [intros H; discriminate H | intros [H _]; lia] | intros H; lia].
  - destruct (forallb is_bit (binary_digits s)).
    + split; [split; [intros H; discriminate H | intros H; lia]|].
      split; [split; [intros H; discriminate H | intros [_ H]; discriminate H]|].
      reflexivity.
    + split; [split; [intros H; discriminate H | intros H; lia]|].
      split; [split; [intros _; split; [exact Hlen | reflexivity] | reflexivity]|].
      intros _ H; discriminate H.
Qed.

Lemma get_value_binary_witness :
  (get_value (str "0b1010") = Err BinaryTooLong
   <-> (66 < strlen (str "0b1010"))%nat) /\
  (get_value (str "0b1010") = Err InvalidBinaryDigit
   <-> (strlen (str "0b1010") <= 66)%nat /\
       forallb is_bit (binary_digits (str "0b1010")) = false) /\
  ((strlen (str "0b1010") <= 66)%nat ->
   forallb is_bit (binary_digits (str "0b1010")) = true ->
   get_value (str "0b1010") = Ok (bits_value (binary_digits (str "0b1010")))).
Proof.
  apply (get_value_binary (str "0b1010")). reflexivity.
Defined.

(** *** Printing and reading back *)

Lemma digit_char_value (d : Z) :
  0 <= d < 16 -> digit_value (digit_char d) = Some d.
Proof.
  intros H.
  assert (C : d = 0 \/ d = 1 \/ d = 2 \/ d = 3 \/ d = 4 \/ d = 5 \/ d = 6 \/
              d = 7 \/ d = 8 \/ d = 9 \/ d = 10 \/ d = 11 \/ d = 12 \/
              d = 13 \/ d = 14 \/ d = 15) by lia.
  repeat (destruct C as [-> | C]; [reflexivity|]). subst d. reflexivity.
Qed.

Lemma digit_char_is_digit (base d : Z) :
  base <= 16 -> 0 <= d < base -> is_digit_in base (digit_char d) = true.
Proof.
  intros Hb Hd. unfold is_digit_in, digit_in.
  rewrite digit_char_value by lia.
  destruct (Z.ltb_spec d base); [reflexivity | lia].
Qed.

Lemma digits_range (base : Z) (fuel : nat) (n : Z) :
  2 <= base -> 0 <= n -> Forall (fun d => 0 <= d < base) (digits base fuel n).
Proof.
  intros Hb. revert n. induction fuel as [|f IH]; intros n Hn; simpl.
  - constructor.
  - destruct (Z.ltb_spec n base).
    + constructor; [lia | constructor].
    + apply Forall_app. split.
      * apply IH. apply Z.div_pos; lia.
      * constructor; [apply Z.mod_pos_bound; lia | constructor].
Qed.

Lemma digits_nonempty (base : Z) (fuel : nat) (n : Z) :
  digits base (S fuel) n <> [].
Proof.
  simpl. destruct (n <? base); [discriminate|].
  intros H. apply app_eq_nil in H as [_ H]. discriminate H.
Qed.

Lemma digits_value_digits (base : Z) (fuel : nat) (n : Z) :
  2 <= base -> 0 <= n < base ^ Z.of_nat fuel ->
  digits_value base (digits base fuel n) 0 = n.
Proof.
  intros Hb. revert n. unfold digits_value.
  induction fuel as [|f IH]; intros n Hn.
  - simpl in *. lia.
  - simpl digits. destruct (Z.ltb_spec n base).
    + simpl. lia.
    + rewrite fold_left_app. simpl. rewrite IH.
      * pose proof (Z.div_mod n base ltac:(lia)). lia.
      * rewrite Nat2Z.inj_succ, Z.pow_succ_r in Hn by lia.
        split; [apply Z.div_pos; lia|].
        apply Z.div_lt_upper_bound; lia.
Qed.

(** The first digit printed for a positive number is not 0. *)
Lemma digits_head (base : Z) (fuel : nat) (n : Z) :
  2 <= base -> 0 < n < base ^ Z.of_nat fuel ->
  exists d l, digits base fuel n = d :: l /\ 0 < d < base.
Proof.
  intros Hb. revert n. induction fuel as [|f IH]; intros n Hn.
  - simpl in Hn. lia.
  - simpl. destruct (Z.ltb_spec n base).
    + exists n, []. split; [reflexivity | lia].
    + destruct (IH (n / base)) as (d & l & E & Hd).
      * rewrite Nat2Z.inj_succ, Z.pow_succ_r in Hn by lia.
        split; [apply Z.div_str_pos; lia|].
        apply Z.div_lt_upper_bound; lia.
      * rewrite E. exists d, (l ++ [n mod base]).
        split; [reflexivity | exact Hd].
Qed.

Lemma fold_digits_map (base : Z) (ds : list Z) (acc : Z) :
  Forall (fun d => 0 <= d < 16) ds ->
  fold_digits base (map digit_char ds) acc = digits_value base ds acc.
Proof.
  unfold fold_digits, digits_value. intros H. revert acc.
  induction H as [|d ds Hd _ IH]; intros acc; simpl; [reflexivity|].
  rewrite digit_char_value by exact Hd. apply IH.
Qed.

Lemma forallb_digit_chars (base : Z) (ds : list Z) :
  base <= 16 -> Forall (fun d => 0 <= d < base) ds ->
  forallb (is_digit_in base) (map digit_char ds) = true.
Proof.
  intros Hb H. induction H as [|d ds Hd _ IH]; simpl; [reflexivity|].
  rewrite digit_char_is_digit by assumption. exact IH.
Qed.

Lemma fold_digits_zeros (base : Z) (n : nat) (l : cstr) :
  fold_digits base (repeat "0"%char n ++ l) 0 = fold_digits base l 0.
Proof.
  unfold fold_digits. induction n as [|n IH]; simpl; [reflexivity | exact IH].
Qed.

Lemma forallb_zeros (base : Z) (n : nat) (l : cstr) :
  2 <= base <= 16 ->
  forallb (is_digit_in base) (repeat "0"%char n ++ l)
  = forallb (is_digit_in base) l.
Proof.
  intros Hb. induction n as [|n IH]; simpl; [reflexivity|].
  pose proof (digit_char_is_digit base 0 ltac:(lia) ltac:(lia)) as H0.
  change (digit_char 0) with "0"%char in H0. rewrite IH, H0. reflexivity.
Qed.

Lemma pow_64_bound (base : Z) : 2 <= base -> UINT64_MAX < base ^ Z.of_nat 64.
Proof.
  intros Hb. apply Z.lt_le_trans with (2 ^ Z.of_nat 64).
  - unfold UINT64_MAX. simpl Z.of_nat. lia.
  - apply Z.pow_le_mono_l. lia.
Qed.

(** The digits printed for a [uint64_t] are digits of the base and denote
    the number. *)
Lemma fmt_u64_spec (base v : Z) :
  2 <= base <= 16 -> is_uint64 v ->
  forallb (is_digit_in base) (fmt_u64 base v) = true /\
  fold_digits base (fmt_u64 base v) 0 = v /\
  fmt_u64 base v <> [].
Proof.
  intros Hb [Hv0 Hv]. unfold fmt_u64.
  pose proof (digits_range base 64 v ltac:(lia) Hv0) as Hr.
  pose proof (pow_64_bound base ltac:(lia)) as Hp.
  split; [apply forallb_digit_chars; [lia | exact Hr]|].
  split.
  - rewrite fold_digits_map.
    + apply digits_value_digits; lia.
    + eapply Forall_impl; [|exact Hr]. simpl. intros d Hd. lia.
  - intros E. apply map_eq_nil in E. exact (digits_nonempty base 63 v E).
Qed.

Lemma get_value_of_literal (lit ds : cstr) (base : Z) :
  literal_digits lit = Some (base, ds) ->
  get_value lit = Ok (Z.min (number_of base ds) UINT64_MAX).
Proof.
  intros Hlit. unfold get_value.
  pose proof (literal_not_binary lit ds [] base Hlit (fun _ => eq_refl)) as Hb.
  rewrite app_nil_r in Hb. rewrite Hb.
  rewrite (get_value_literal lit ds base Hlit). simpl value. simpl endptr.
  unfold char_at. rewrite nth_overflow by lia. reflexivity.
Qed.

Lemma strtoull_space (c : ascii) (s : cstr) :
  isspace c = true -> strtoull (c :: s) = shift_endptr 1 (strtoull s).
Proof.
  intros Hc. unfold strtoull. cbn [skip_space]. rewrite Hc. cbn [skipn].
  destruct (sign_of (skipn (skip_space s) s)) as [neg sg].
  destruct (base_of (skipn sg (skipn (skip_space s) s))) as [base pre].
  destruct (scan_digits base
              (skipn pre (skipn sg (skipn (skip_space s) s))) 0 false)
    as [[a o] n].
  destruct n as [|n].
  - destruct (Nat.eqb pre 2); unfold shift_endptr; simpl endptr.
    + replace (skip_space s + sg + 1)%nat with (S (skip_space s + sg)) by lia.
      simpl. f_equal. lia.
    + reflexivity.
  - unfold shift_endptr. simpl endptr.
    replace (skip_space s + sg + pre + S n)%nat
      with (S (skip_space s + sg + pre + n)) by lia.
    simpl. f_equal. lia.
Qed.

Lemma strtoull_spaces (n : nat) (s : cstr) :
  strtoull (repeat " "%char n ++ s) = shift_endptr n (strtoull s).
Proof.
  induction n as [|n IH]; simpl.
  - unfold shift_endptr. destruct (strtoull s) as [v [|p]]; reflexivity.
  - rewrite strtoull_space by reflexivity. rewrite IH.
    unfold shift_endptr. destruct (strtoull s) as [v [|p]]; simpl; [reflexivity|].
    replace (n + S p)%nat with (S (n + p)) by lia. reflexivity.
Qed.

Lemma literal_nonempty (lit ds : cstr) (base : Z) :
  literal_digits lit = Some (base, ds) -> lit <> [].
Proof. intros H E. subst lit. vm_compute in H. discriminate H. Qed.

(** Leading blanks do not change what a constant parses to. *)
Lemma get_value_spaces (n : nat) (lit ds : cstr) (base : Z) :
  literal_digits lit = Some (base, ds) ->
  get_value (repeat " "%char n ++ lit)
  = Ok (Z.min (number_of base ds) UINT64_MAX).
Proof.
  intros Hlit. destruct n as [|n]; [apply get_value_of_literal; exact Hlit|].
  unfold get_value.
  assert (Hb : is_binary_literal (repeat " "%char (S n) ++ lit) = false).
  { unfold is_binary_literal. simpl. rewrite andb_false_r. reflexivity. }
  rewrite Hb, strtoull_spaces, (get_value_literal lit ds base Hlit).
  pose proof (literal_nonempty lit ds base Hlit) as Hne.
  unfold shift_endptr. simpl endptr. simpl value.
  destruct lit as [|c lit]; [contradiction|].
  cbn [length]. cbn iota. simpl endptr. simpl value.
  unfold char_at. rewrite nth_overflow; [reflexivity|].
  rewrite length_app, repeat_length. simpl. lia.
Qed.

Lemma literal_hex (ds : cstr) :
  ds <> [] -> forallb (is_digit_in 16) ds = true ->
  literal_digits ("0"%char :: "x"%char :: ds) = Some (16, ds).
Proof.
  intros Hne Hds. unfold literal_digits. simpl.
  destruct ds as [|d ds]; [contradiction|]. simpl in Hds. rewrite Hds.
  reflexivity.
Qed.

(** The decimal digits of a [uint64_t] form a constant that denotes it:
    the octal constant 0 for zero, a decimal constant otherwise. *)
Lemma literal_decimal (v : Z) :
  is_uint64 v ->
  exists base,
    literal_digits (fmt_u64 10 v) = Some (base, fmt_u64 10 v) /\
    number_of base (fmt_u64 10 v) = v.
Proof.
  intros Hv. destruct (Z.eq_dec v 0) as [->|Hnz].
  - exists 8. split; reflexivity.
  - exists 10.
    destruct (fmt_u64_spec 10 v ltac:(lia) Hv) as (Hds & Hval & _).
    split; [|exact Hval].
    destruct Hv as [Hv0 Hv].
    pose proof (pow_64_bound 10 ltac:(lia)) as Hp.
    destruct (digits_head 10 64 v ltac:(lia) ltac:(lia)) as (d & l & E & Hd).
    unfold fmt_u64 in *. rewrite E in *. cbn [map] in *.
    unfold literal_digits, char_at. cbn [nth].
    destruct (Ascii.eqb_spec (digit_char d) "0") as [E0|_].
    + pose proof (digit_char_value d ltac:(lia)) as Hdv.
      rewrite E0 in Hdv. vm_compute in Hdv. inversion Hdv. lia.
    + rewrite Hds. reflexivity.
Qed.

(** C5: re-parsing the hex rendering and the decimal rendering of a
    64-bit value gives the value back, at every display width. *)
Theorem get_value_format_roundtrip (v : Z) (width : multipliers) :
  is_uint64 v ->
  get_value (format_hex v width) = Ok v /\
  get_value (format_decimal v width) = Ok v.
Proof.
  intros Hv. pose proof Hv as [Hv0 Hmax]. split.
  - unfold format_hex, pad_left.
    destruct (fmt_u64_spec 16 v ltac:(lia) Hv) as (Hds & Hval & Hne).
    set (k := (width_hex (data width) - length (fmt_u64 16 v))%nat).
    change (str "0x" ++ repeat "0"%char k ++ fmt_u64 16 v)
      with ("0"%char :: "x"%char :: repeat "0"%char k ++ fmt_u64 16 v).
    rewrite (get_value_of_literal _ (repeat "0"%char k ++ fmt_u64 16 v) 16).
    + unfold number_of. rewrite fold_digits_zeros, Hval. f_equal. lia.
    + apply literal_hex.
      * intros E. apply app_eq_nil in E as [_ E]. exact (Hne E).
      * rewrite forallb_zeros by lia. exact Hds.
  - unfold format_decimal, pad_left.
    destruct (literal_decimal v Hv) as (base & Hlit & Hval).
    rewrite (get_value_spaces _ _ _ _ Hlit), Hval. f_equal. lia.
Qed.

Lemma get_value_format_roundtrip_witness :
  get_value (format_hex 18446744073709551615 KILO)
  = Ok 18446744073709551615 /\
  get_value (format_decimal 18446744073709551615 KILO)
  = Ok 18446744073709551615.
Proof.
  apply (get_value_format_roundtrip 18446744073709551615 KILO).
  unfold is_uint64, UINT64_MAX. lia.
Defined.

(** *** The bit field *)

Lemma land_1_testbit (v : Z) :
  (Z.land v 1 =? 0) = negb (Z.testbit v 0).
Proof.
  change 1 with (Z.ones 1). rewrite Z.land_ones by lia.
  change (2 ^ 1) with 2. rewrite <- Z.bit0_mod.
  destruct (Z.testbit v 0); reflexivity.
Qed.

Lemma bit_string_succ (zero_ch : ascii) (v : Z) (len : nat) :
  bit_string zero_ch v (S len)
  = bit_string zero_ch (Z.shiftr v 1) len
    ++ [if Z.land v 1 =? 0 then zero_ch else "1"%char].
Proof.
  unfold bit_string. rewrite seq_S, map_app. f_equal.
  - apply map_ext_in. intros i Hi. apply in_seq in Hi.
    rewrite Z.shiftr_spec by lia.
    replace (Z.of_nat (len - 1 - i) + 1) with (Z.of_nat (S len - 1 - i)) by lia.
    reflexivity.
  - cbn [map]. f_equal.
    replace (Z.of_nat (S len - 1 - (0 + len))) with 0 by lia.
    rewrite land_1_testbit. destruct (Z.testbit v 0); reflexivity.
Qed.

Lemma print_binary_loop_spec (zero_ch : ascii) (len : nat) (v : Z) (acc : cstr) :
  print_binary_loop zero_ch len v acc = bit_string zero_ch v len ++ acc.
Proof.
  revert v acc. induction len as [|len IH]; intros v acc; [reflexivity|].
  cbn [print_binary_loop]. rewrite IH, bit_string_succ, <- app_assoc.
  reflexivity.
Qed.

Lemma print_binary_bit_string (zero_ch : ascii) (v : Z) :
  print_binary zero_ch v = str "  " ++ bit_string zero_ch v (bit_length v).
Proof.
  unfold print_binary. rewrite print_binary_loop_spec, app_nil_r. reflexivity.
Qed.

Lemma print_number_line (zero_ch : ascii) (v : Z) (width : multipliers)
  (show_bin : bool) :
  print_number zero_ch v width show_bin = value_line zero_ch show_bin width v.
Proof.
  unfold print_number, value_line, format_hex, format_decimal, print_size.
  rewrite print_binary_bit_string. rewrite <- !app_assoc. reflexivity.
Qed.

(** *** The driver *)

Lemma width_pass_ok (args : list cstr) (vs : list Z) (width : multipliers) :
  parse_to args vs -> width_pass args width = inr (max_width vs width).
Proof.
  intros H. revert width.
  induction H as [|a v args vs Ha _ IH]; intros width; simpl; [reflexivity|].
  rewrite Ha. apply IH.
Qed.

Lemma print_pass_ok (zero_ch : ascii) (args : list cstr) (vs : list Z)
  (width : multipliers) (show_bin : bool) :
  parse_to args vs ->
  print_pass zero_ch args width show_bin
  = (concat (map (value_line zero_ch show_bin width) vs), []).
Proof.
  intros H. induction H as [|a v args vs Ha _ IH]; simpl; [reflexivity|].
  unfold print_string. rewrite Ha, IH, print_number_line. reflexivity.
Qed.

Lemma width_pass_error (args : list cstr) (width : multipliers) :
  Exists (fun a => exists e, get_value a = Err e) args ->
  exists a e, In a args /\ get_value a = Err e /\
              width_pass args width = inl (error_message a e).
Proof.
  intros H. revert width.
  induction args as [|a args IH]; intros width; [inversion H|].
  simpl. destruct (get_value a) as [v|e] eqn:Ea.
  - inversion H as [? ? [e He]|? ? Hrest]; subst; [congruence|].
    destruct (IH Hrest
                (if rank width <? rank (get_multiplier v)
                 then get_multiplier v else width))
      as (a' & e' & Hin & Hget & Hw).
    exists a', e'. repeat split; [right; exact Hin | exact Hget | exact Hw].
  - exists a, e. repeat split; [left; reflexivity | exact Ea].
Qed.

Lemma all_parse_to (args : list cstr) :
  Forall (fun a => exists v, get_value a = Ok v) args ->
  exists vs, parse_to args vs.
Proof.
  intros H. induction H as [|a args [v Hv] _ [vs IH]].
  - exists []. constructor.
  - exists (v :: vs). constructor; assumption.
Qed.

Lemma error_message_nonempty (a : cstr) (e : parse_error) :
  error_message a e <> [].
Proof. destruct e; discriminate. Qed.

Lemma main_values (argv : list cstr) (vs : list Z) :
  value_args argv <> [] -> parse_to (value_args argv) vs ->
  main argv
  = mk_process
      (concat (map (value_line (zero_ch_of argv) (show_bin_of argv)
                      (max_width vs BYTE)) vs))
      [] EXIT_SUCCESS.
Proof.
  unfold value_args, zero_ch_of, show_bin_of, main.
  destruct (mode_of argv) as [[show_bin first] zero_ch]. simpl fst. simpl snd.
  intros Hne Hp.
  destruct (Nat.leb_spec (length argv) first) as [Hle|_].
  - exfalso. apply Hne. apply skipn_all2. exact Hle.
  - rewrite (width_pass_ok _ _ _ Hp), (print_pass_ok _ _ _ _ _ Hp). reflexivity.
Qed.

Lemma max_width_ge (vs : list Z) (width : multipliers) :
  rank width <= rank (max_width vs width) /\
  forall v, In v vs -> rank (get_multiplier v) <= rank (max_width vs width).
Proof.
  revert width. induction vs as [|v vs IH]; intros width; simpl.
  - split; [lia | intros v []].
  - destruct (IH (if rank width <? rank (get_multiplier v)
                  then get_multiplier v else width)) as [H1 H2].
    destruct (Z.ltb_spec (rank width) (rank (get_multiplier v)));
      (split; [lia | intros v' [<- | Hin]; [lia | apply H2; exact Hin]]).
Qed.





(** C7: if some value argument fails to parse, the process ends with a
    non-zero status, the message of the failing argument is on [stderr]
    and nothing is on [stdout]; if all value arguments parse, the status
    is 0. *)
Theorem main_fail_fast (argv : list cstr) :
  (Exists (fun a => exists e, get_value a = Err e) (value_args argv) ->
   status (main argv) <> 0 /\
   stdout (main argv) = [] /\
   stderr (main argv) <> [] /\
   exists a e, In a (value_args argv) /\ get_value a = Err e /\
               stderr (main argv) = error_message a e) /\
  (Forall (fun a => exists v, get_value a = Ok v) (value_args argv) ->
   status (main argv) = 0 /\ stderr (main argv) = []).
Proof.
  unfold value_args, main.
  destruct (mode_of argv) as [[show_bin first] zero_ch]. simpl fst. simpl snd.
  split.
  - intros Hex.
    destruct (Nat.leb_spec (length argv) first) as [Hle|_].
    { rewrite skipn_all2 in Hex by exact Hle. inversion Hex. }
    destruct (width_pass_error _ BYTE Hex) as (a & e & Hin & Hget & ->).
    simpl. split; [discriminate|]. split; [reflexivity|].
    split; [apply error_message_nonempty|].
    exists a, e. repeat split; assumption.
  - intros Hall.
    destruct (Nat.leb_spec (length argv) first) as [_|_];
      [split; reflexivity|].
    destruct (all_parse_to _ Hall) as [vs Hvs].
    rewrite (width_pass_ok _ _ _ Hvs), (print_pass_ok _ _ _ _ _ Hvs).
    split; reflexivity.
Qed.

Lemma main_fail_fast_witness :
  (status (main [str "xvalues"; str "7"; str "5X"; str "9"]) <> 0 /\
   stdout (main [str "xvalues"; str "7"; str "5X"; str "9"]) = [] /\
   stderr (main [str "xvalues"; str "7"; str "5X"; str "9"]) <> [] /\
   exists a e, In a (value_args [str "xvalues"; str "7"; str "5X"; str "9"]) /\
               get_value a = Err e /\
               stderr (main [str "xvalues"; str "7"; str "5X"; str "9"])
               = error_message a e) /\
  status (main [str "xvalues"; str "7"; str "0b11"]) = 0 /\
  stderr (main [str "xvalues"; str "7"; str "0b11"]) = [].
Proof.
  split.
  - apply (proj1 (main_fail_fast [str "xvalues"; str "7"; str "5X"; str "9"])).
    apply Exists_cons_tl. apply Exists_cons_hd.
    exists (InvalidSuffix 1). reflexivity.
  - apply (proj2 (main_fail_fast [str "xvalues"; str "7"; str "0b11"])).
    repeat constructor; eexists; reflexivity.
Defined.

(** *** The bit field and the mode flags *)

Lemma bit_length_cases (v : Z) :
  0 <= v <= UINT64_MAX ->
  (v < 2 ^ 4 /\ bit_length v = 4%nat) \/
  (2 ^ 4 <= v < 2 ^ 8 /\ bit_length v = 8%nat) \/
  (2 ^ 8 <= v < 2 ^ 16 /\ bit_length v = 16%nat) \/
  (2 ^ 16 <= v < 2 ^ 32 /\ bit_length v = 32%nat) \/
  (2 ^ 32 <= v < 2 ^ 64 /\ bit_length v = 64%nat).
Proof.
  unfold UINT64_MAX, bit_length. intros Hv.
  repeat match goal with
         | |- context [?a <=? ?b] =>
             destruct (Z.leb_spec a b); [left; split; [lia | reflexivity] | right]
         end.
  split; [lia | reflexivity].
Qed.

(** C8: the bit field has the smallest length among 4, 8, 16, 32, 64 that
    holds the value; position [i] from the left shows bit [len - 1 - i],
    as 1 when set and as the fill character when clear; a first argument
    [-b] selects the fill character [.] and [-B] selects [0], so that
    [-b 5] prints [.1.1] and [-B 5] prints [0101]. *)
Theorem print_binary_field (zero_ch : ascii) (v : Z) (prog : cstr)
  (rest : list cstr) :
  is_uint64 v ->
  In (bit_length v) [4; 8; 16; 32; 64]%nat /\
  v < 2 ^ Z.of_nat (bit_length v) /\
  (forall n, In n [4; 8; 16; 32; 64]%nat -> v < 2 ^ Z.of_nat n ->
             (bit_length v <= n)%nat) /\
  print_binary zero_ch v = str "  " ++ bit_string zero_ch v (bit_length v) /\
  length (bit_string zero_ch v (bit_length v)) = bit_length v /\
  (forall i, (i < bit_length v)%nat ->
     char_at (bit_string zero_ch v (bit_length v)) i
     = if Z.testbit v (Z.of_nat (bit_length v - 1 - i)) then "1"%char
       else zero_ch) /\
  mode_of (prog :: str "-b" :: rest) = (true, 2%nat, "."%char) /\
  mode_of (prog :: str "-B" :: rest) = (true, 2%nat, "0"%char) /\
  stdout (main [prog; str "-b"; str "5"])
  = str "0x0005    5    5.0b  .1.1" ++ [LF] /\
  stdout (main [prog; str "-B"; str "5"])
  = str "0x0005    5    5.0b  0101" ++ [LF].
Proof.
  intros Hv.
  assert (Hlen : forall n, length (bit_string zero_ch v n) = n)
    by (intros n; unfold bit_string; rewrite length_map, length_seq; reflexivity).
  split; [|split; [|split; [|split; [|split; [|split]]]]].
  - destruct (bit_length_cases v Hv) as [H|[H|[H|[H|H]]]];
      destruct H as [_ ->]; simpl; auto 6.
  - destruct (bit_length_cases v Hv) as [H|[H|[H|[H|H]]]];
      destruct H as [Hb ->]; simpl Z.of_nat; lia.
  - intros n Hn Hvn.
    destruct (bit_length_cases v Hv) as [H|[H|[H|[H|H]]]];
      destruct H as [Hb ->];
      simpl in Hn; destruct Hn as [<-|[<-|[<-|[<-|[<-|[]]]]]];
      simpl Z.of_nat in Hvn; lia.
  - apply print_binary_bit_string.
  - apply Hlen.
  - intros i Hi. unfold char_at, bit_string.
    set (f := fun j => if Z.testbit v (Z.of_nat (bit_length v - 1 - j))
                       then "1"%char else zero_ch).
    rewrite (nth_indep (map f (seq 0 (bit_length v))) NUL (f 0%nat))
      by (rewrite length_map, length_seq; exact Hi).
    rewrite map_nth, seq_nth by exact Hi. reflexivity.
  - repeat split.
Qed.

Lemma print_binary_field_witness :
  print_binary "."%char 5 = str "  .1.1" /\
  print_binary "0"%char 5 = str "  0101" /\
  bit_length 5 = 4%nat.
Proof.
  assert (H5 : is_uint64 5) by (unfold is_uint64, UINT64_MAX; lia).
  split; [|split].
  - exact (proj1 (proj2 (proj2 (proj2
             (print_binary_field "."%char 5 [] [] H5))))).
  - exact (proj1 (proj2 (proj2 (proj2
             (print_binary_field "0"%char 5 [] [] H5))))).
  - reflexivity.
Defined.

(** *** The demonstration table *)

(** C9: with no arguments the program prints exactly the 20 lines of
    [demo_table_text], in order: each is [0x] and 16 hexadecimal digits
    that read back to the table value, a blank, a decimal column of 20
    positions that reads back to the same value, a blank and the size
    column, 47 characters in all and so without a bit field; nothing is
    written to [stderr] and the status is 0. *)
Theorem main_demo_table (prog : cstr) :
  stdout (main [prog]) = table_text false " " /\
  lines_of (stdout (main [prog])) = map str demo_table_text /\
  length (lines_of (stdout (main [prog]))) = 20%nat /\
  Forall2
    (fun l v =>
       length l = 47%nat /\
       firstn 2 l = str "0x" /\
       forallb (is_digit_in 16) (firstn 16 (skipn 2 l)) = true /\
       get_value (firstn 18 l) = Ok v /\
       char_at l 18 = " "%char /\
       get_value (firstn 20 (skipn 19 l)) = Ok v /\
       char_at l 39 = " "%char)
    (lines_of (stdout (main [prog]))) demo_values /\
  stdout (main [prog]) = concat (map (value_line " " false EXI) demo_values) /\
  count_lines (stdout (main [prog])) = 20%nat /\
  stderr (main [prog]) = [] /\
  status (main [prog]) = 0.
Proof.
  assert (E : main [prog] = mk_process (table_text false " ") [] 0)
    by (vm_compute; reflexivity).
  assert (L : lines_of (table_text false " ") = map str demo_table_text)
    by (vm_compute; reflexivity).
  rewrite E. cbn [stdout stderr status]. rewrite L.
  split; [reflexivity|]. split; [reflexivity|]. split; [reflexivity|].
  split.
  - unfold demo_table_text, demo_values. cbn [map].
    repeat (constructor; [repeat split; vm_compute; reflexivity|]).
    constructor.
  - split; [vm_compute; reflexivity|].
    split; [vm_compute; reflexivity|]. split; reflexivity.
Qed.

(** ** Further properties *)

(** *** Every parsed value is a [uint64_t] *)

Lemma digit_in_range (base : Z) (c : ascii) (d : Z) :
  digit_in base c = Some d -> 0 <= d < base.
Proof.
  intros H.
  assert (Hc : is_digit_in base c = true) by (unfold is_digit_in; rewrite H; reflexivity).
  destruct (is_digit_in_value base c Hc) as (d' & _ & Hd & Hr).
  rewrite H in Hd. inversion Hd. subst d'. exact Hr.
Qed.

Lemma scan_digits_range (base : Z) (s : cstr) (acc : Z) (ovf : bool) :
  0 <= acc <= UINT64_MAX ->
  0 <= fst (fst (scan_digits base s acc ovf)) <= UINT64_MAX.
Proof.
  revert acc ovf. induction s as [|c s IH]; intros acc ovf Hacc; simpl; [exact Hacc|].
  destruct (digit_in base c) as [d|] eqn:Hd; [|exact Hacc].
  pose proof (digit_in_range base c d Hd) as Hr.
  destruct (ovf || (UINT64_MAX <? acc * base + d)) eqn:E.
  - specialize (IH acc true Hacc).
    destruct (scan_digits base s acc true) as [[a o] n]. exact IH.
  - apply orb_false_elim in E as [_ E]. apply Z.ltb_ge in E.
    specialize (IH (acc * base + d) false ltac:(nia)).
    destruct (scan_digits base s (acc * base + d) false) as [[a o] n]. exact IH.
Qed.

Lemma wrap64_range (z : Z) : 0 <= wrap64 z <= UINT64_MAX.
Proof.
  unfold wrap64, UINT64_MAX.
  pose proof (Z.mod_pos_bound z (2 ^ 64) ltac:(lia)). lia.
Qed.

Lemma strtoull_range (s : cstr) : 0 <= value (strtoull s) <= UINT64_MAX.
Proof.
  unfold strtoull.
  destruct (sign_of (skipn (skip_space s) s)) as [neg sg].
  destruct (base_of (skipn sg (skipn (skip_space s) s))) as [base pre].
  pose proof (scan_digits_range base
                (skipn pre (skipn sg (skipn (skip_space s) s))) 0 false
                ltac:(unfold UINT64_MAX; lia)) as H.
  destruct (scan_digits base _ 0 false) as [[a o] n]. simpl in H.
  destruct n as [|n].
  - destruct (Nat.eqb pre 2); simpl; unfold UINT64_MAX; lia.
  - simpl. destruct o; [unfold UINT64_MAX; lia|].
    destruct neg; [apply wrap64_range | exact H].
Qed.

Lemma bits_value_bound (l : cstr) :
  0 <= bits_value l < 2 ^ Z.of_nat (length l).
Proof.
  induction l as [|c l IH] using rev_ind.
  - simpl. unfold bits_value. simpl. lia.
  - rewrite bits_value_snoc, length_app. simpl length.
    replace (Z.of_nat (length l + 1)) with (Z.succ (Z.of_nat (length l))) by lia.
    rewrite Z.pow_succ_r by lia.
    destruct (Ascii.eqb c "1"); lia.
Qed.

Lemma get_value_binary_range (s : cstr) (v : Z) :
  is_binary_literal s = true -> get_value s = Ok v -> 0 <= v <= UINT64_MAX.
Proof.
  intros Hb. rewrite (get_value_binary_cases s Hb).
  destruct (Nat.ltb_spec 66 (strlen s)) as [|Hlen]; [discriminate|].
  destruct (forallb is_bit (binary_digits s)); [|discriminate].
  intros H. inversion H. subst v.
  pose proof (bits_value_bound (binary_digits s)) as Hbv.
  assert (Hl : (length (binary_digits s) <= 64)%nat).
  { unfold binary_digits. rewrite length_firstn. lia. }
  assert (2 ^ Z.of_nat (length (binary_digits s)) <= 2 ^ 64)
    by (apply Z.pow_le_mono_r; lia).
  unfold UINT64_MAX. lia.
Qed.

Lemma get_value_plain_range (s : cstr) (v : Z) :
  is_binary_literal s = false -> get_value s = Ok v -> 0 <= v <= UINT64_MAX.
Proof.
  intros Hb. unfold get_value. rewrite Hb.
  destruct (Ascii.eqb (char_at s (endptr (strtoull s))) NUL).
  - intros H. inversion H. apply strtoull_range.
  - destruct (suffix_multiplier (char_at s (endptr (strtoull s))));
      [|discriminate].
    intros H. inversion H. apply wrap64_range.
Qed.

(** X1: whatever the argument, a value that [get_value] stores lies in
    the range of [uint64_t]. *)
Theorem get_value_in_range (s : cstr) (v : Z) :
  get_value s = Ok v -> is_uint64 v.
Proof.
  intros H. unfold is_uint64.
  destruct (is_binary_literal s) eqn:Hb.
  - exact (get_value_binary_range s v Hb H).
  - exact (get_value_plain_range s v Hb H).
Qed.

Lemma get_value_in_range_witness :
  get_value (str "-1") = Ok 18446744073709551615 /\
  is_uint64 18446744073709551615.
Proof.
  split; [reflexivity|].
  apply (get_value_in_range (str "-1") 18446744073709551615). reflexivity.
Defined.

(** *** Constants, signs and arguments without digits *)

(** X2: a constant without suffix parses to its number when that fits in
    64 bits and to 2^64-1 when it does not; no error is raised. *)
Theorem get_value_constant_saturates (lit ds : cstr) (base : Z) :
  literal_digits lit = Some (base, ds) ->
  (number_of base ds <= UINT64_MAX -> get_value lit = Ok (number_of base ds)) /\
  (UINT64_MAX < number_of base ds -> get_value lit = Ok UINT64_MAX).
Proof.
  intros Hlit. rewrite (get_value_of_literal lit ds base Hlit).
  split; intros H; f_equal; lia.
Qed.

Lemma get_value_constant_saturates_witness :
  get_value (str "0x10000000000000000") = Ok UINT64_MAX /\
  get_value (str "0777") = Ok 511.
Proof.
  split.
  - apply (proj2 (get_value_constant_saturates (str "0x10000000000000000")
                    (str "10000000000000000") 16 eq_refl)).
    vm_compute. reflexivity.
  - apply (proj1 (get_value_constant_saturates (str "0777") (str "0777") 8
                    eq_refl)).
    vm_compute. discriminate.
Defined.

(** The base and the digit loop of [strtoull] on a constant. *)
Lemma literal_scan (lit ds : cstr) (base : Z) :
  literal_digits lit = Some (base, ds) ->
  exists pre a n,
    base_of lit = (base, pre) /\
    scan_digits base (skipn pre lit) 0 false
    = (a, UINT64_MAX <? number_of base ds, S n) /\
    (number_of base ds <= UINT64_MAX -> a = number_of base ds) /\
    (pre + S n = length lit)%nat.
Proof.
  unfold literal_digits, number_of, base_of. intros Hlit.
  assert (Hmax : 0 <= 0 <= UINT64_MAX) by (unfold UINT64_MAX; lia).
  destruct (Ascii.eqb (char_at lit 0) "0") eqn:E0.
  - destruct (is_x (char_at lit 1)) eqn:Ex.
    + destruct lit as [|c0 [|c1 [|c2 lit]]]; try discriminate Hlit.
      cbn [skipn] in Hlit.
      destruct (forallb (is_digit_in 16) (c2 :: lit)) eqn:Hds; [|discriminate].
      inversion Hlit; subst base ds; clear Hlit.
      destruct (scan_digits_digits 16 (c2 :: lit) [] 0 ltac:(lia) Hmax Hds eq_refl)
        as (a & Hscan & Ha).
      rewrite app_nil_r in Hscan.
      exists 2%nat, a, (length lit). unfold is_x in Ex. rewrite Ex.
      repeat split; assumption.
    + destruct (forallb (is_digit_in 8) lit) eqn:Hds; [|discriminate].
      inversion Hlit; subst base ds; clear Hlit.
      destruct (scan_digits_digits 8 lit [] 0 ltac:(lia) Hmax Hds eq_refl)
        as (a & Hscan & Ha).
      rewrite app_nil_r in Hscan.
      destruct lit as [|c0 lit]; [vm_compute in E0; discriminate|].
      exists 0%nat, a, (length lit). unfold is_x in Ex. rewrite Ex.
      repeat split; assumption.
  - destruct lit as [|c0 lit]; [discriminate|].
    destruct (forallb (is_digit_in 10) (c0 :: lit)) eqn:Hds; [|discriminate].
    inversion Hlit; subst base ds; clear Hlit.
    destruct (scan_digits_digits 10 (c0 :: lit) [] 0 ltac:(lia) Hmax Hds eq_refl)
      as (a & Hscan & Ha).
    rewrite app_nil_r in Hscan.
    exists 0%nat, a, (length lit). repeat split; assumption.
Qed.

(** X3: a minus sign in front of a constant negates its number modulo
    2^64 (an out-of-range constant still gives 2^64-1), and a plus sign
    changes nothing; neither is an error. *)
Theorem get_value_signed (lit ds : cstr) (base : Z) :
  literal_digits lit = Some (base, ds) ->
  get_value ("-"%char :: lit)
  = Ok (if UINT64_MAX <? number_of base ds then UINT64_MAX
        else wrap64 (- number_of base ds)) /\
  get_value ("+"%char :: lit) = Ok (Z.min (number_of base ds) UINT64_MAX).
Proof.
  intros Hlit.
  destruct (literal_scan lit ds base Hlit) as (pre & a & n & Hbase & Hscan & Ha & Hlen).
  assert (Hend : forall sg, char_at (sg :: lit) (0 + 1 + pre + S n) = NUL).
  { intros sg. unfold char_at. apply nth_overflow. simpl. lia. }
  split.
  - unfold get_value.
    replace (is_binary_literal ("-"%char :: lit)) with false
      by (unfold is_binary_literal; simpl; rewrite andb_false_r; reflexivity).
    rewrite (strtoull_eq ("-"%char :: lit) 0 1 pre n true
               (UINT64_MAX <? number_of base ds) base a);
      try reflexivity; try assumption.
    simpl endptr. simpl value. rewrite Hend. cbn [Ascii.eqb Bool.eqb].
    change (Ascii.eqb NUL NUL) with true. cbv iota.
    destruct (Z.ltb_spec UINT64_MAX (number_of base ds)); [reflexivity|].
    rewrite Ha by lia. reflexivity.
  - unfold get_value.
    replace (is_binary_literal ("+"%char :: lit)) with false
      by (unfold is_binary_literal; simpl; rewrite andb_false_r; reflexivity).
    rewrite (strtoull_eq ("+"%char :: lit) 0 1 pre n false
               (UINT64_MAX <? number_of base ds) base a);
      try reflexivity; try assumption.
    simpl endptr. simpl value. rewrite Hend.
    change (Ascii.eqb NUL NUL) with true. cbv iota.
    rewrite (min_of_scan _ _ Ha). reflexivity.
Qed.

Lemma get_value_signed_witness :
  get_value (str "-1") = Ok 18446744073709551615 /\
  get_value (str "+1") = Ok 1.
Proof.
  apply (get_value_signed (str "1") (str "1") 10). reflexivity.
Defined.

(** X4: an argument that does not begin with white space, a sign or a
    decimal digit has no numeric part.  If it is empty or begins with a
    magnitude letter it is accepted with the value 0, whatever follows the
    letter; otherwise it is rejected at position 0. *)
Theorem get_value_without_digits (s : cstr) :
  isspace (char_at s 0) = false ->
  Ascii.eqb (char_at s 0) "-" = false ->
  Ascii.eqb (char_at s 0) "+" = false ->
  is_digit_in 10 (char_at s 0) = false ->
  get_value s
  = if Ascii.eqb (char_at s 0) NUL then Ok 0
    else match suffix_multiplier (char_at s 0) with
         | Some _ => Ok 0
         | None => Err (InvalidSuffix 0)
         end.
Proof.
  intros Hsp Hm Hp Hd.
  assert (H0 : Ascii.eqb (char_at s 0) "0" = false).
  { destruct (Ascii.eqb_spec (char_at s 0) "0") as [E|]; [|reflexivity].
    rewrite E in Hd. vm_compute in Hd. discriminate Hd. }
  assert (Hst : strtoull s = mk_strtoull 0 0).
  { unfold strtoull. destruct s as [|c s]; [reflexivity|].
    unfold char_at in *. cbn [nth] in *.
    cbn [skip_space]. rewrite Hsp. cbn [skipn sign_of]. rewrite Hm, Hp.
    cbn [skipn]. unfold base_of, char_at. cbn [nth]. rewrite H0.
    cbn [skipn scan_digits]. unfold is_digit_in in Hd.
    destruct (digit_in 10 c); [discriminate Hd | reflexivity]. }
  unfold get_value.
  replace (is_binary_literal s) with false
    by (unfold is_binary_literal; rewrite H0, andb_false_r; reflexivity).
  rewrite Hst. simpl endptr. simpl value.
  destruct (Ascii.eqb (char_at s 0) NUL); [reflexivity|].
  destruct (suffix_multiplier (char_at s 0)); reflexivity.
Qed.

Lemma get_value_without_digits_witness :
  get_value (str "Kilo") = Ok 0 /\
  get_value (str "x7") = Err (InvalidSuffix 0) /\
  get_value [] = Ok 0.
Proof.
  split; [|split].
  - apply (get_value_without_digits (str "Kilo")); reflexivity.
  - apply (get_value_without_digits (str "x7")); reflexivity.
  - apply (get_value_without_digits []); reflexivity.
Defined.

(** *** Reading back the bit field *)

Lemma strlen_no_nul (s : cstr) :
  forallb (fun c => negb (Ascii.eqb c NUL)) s = true -> strlen s = length s.
Proof.
  induction s as [|c s IH]; simpl; [reflexivity|].
  intros H. apply andb_prop in H as [Hc Hs].
  destruct (Ascii.eqb c NUL); [discriminate Hc|]. rewrite IH by exact Hs.
  reflexivity.
Qed.

Lemma bit_string_bits (v : Z) (len : nat) :
  forallb is_bit (bit_string "0" v len) = true.
Proof.
  unfold bit_string. rewrite forallb_forall. intros c Hc.
  apply in_map_iff in Hc as (i & <- & _).
  destruct (Z.testbit v (Z.of_nat (len - 1 - i))); reflexivity.
Qed.

Lemma is_bit_not_nul (l : cstr) :
  forallb is_bit l = true ->
  forallb (fun c => negb (Ascii.eqb c NUL)) l = true.
Proof.
  rewrite !forallb_forall. intros H c Hc. specialize (H c Hc).
  destruct (Ascii.eqb_spec c NUL) as [->|]; [discriminate H | reflexivity].
Qed.

Lemma bit_string_length (zero_ch : ascii) (v : Z) (len : nat) :
  length (bit_string zero_ch v len) = len.
Proof. unfold bit_string. rewrite length_map, length_seq. reflexivity. Qed.

(** Read as bits, the zero-filled field of [len] positions is the value
    modulo 2^len. *)
Lemma bits_value_bit_string (v : Z) (len : nat) :
  bits_value (bit_string "0" v len) = v mod 2 ^ Z.of_nat len.
Proof.
  revert v. induction len as [|len IH]; intros v.
  - simpl. rewrite Z.mod_1_r. reflexivity.
  - rewrite bit_string_succ, bits_value_snoc, IH.
    rewrite Nat2Z.inj_succ, Z.pow_succ_r by lia.
    rewrite Z.shiftr_div_pow2 by lia. change (2 ^ 1) with 2.
    rewrite Z.rem_mul_r by lia.
    rewrite land_1_testbit.
    pose proof (Z.bit0_mod v) as Hb.
    destruct (Z.testbit v 0); simpl in Hb |- *; lia.
Qed.

(** X5: the bit field printed with the fill character 0, with a [0b] or
    [0B] prefix in place of its two leading blanks, parses back to the
    value. *)
Theorem print_binary_parses_back (v : Z) (p : ascii) :
  is_uint64 v -> is_b p = true ->
  get_value ("0"%char :: p :: skipn 2 (print_binary "0" v)) = Ok v.
Proof.
  intros Hv Hp. rewrite print_binary_bit_string. cbn [str list_ascii_of_string app skipn].
  set (bs := bit_string "0" v (bit_length v)).
  assert (Hbits : forallb is_bit bs = true) by apply bit_string_bits.
  assert (Hlen : length bs = bit_length v) by apply bit_string_length.
  assert (Hrange : (4 <= bit_length v <= 64)%nat /\ v < 2 ^ Z.of_nat (bit_length v)).
  { destruct (bit_length_cases v Hv) as [H|[H|[H|[H|H]]]];
      destruct H as [Hb ->]; simpl Z.of_nat; lia. }
  assert (Hpn : Ascii.eqb p NUL = false).
  { destruct (Ascii.eqb_spec p NUL) as [->|]; [discriminate Hp | reflexivity]. }
  assert (Hstr : strlen ("0"%char :: p :: bs) = (2 + bit_length v)%nat).
  { cbn [strlen]. rewrite Hpn. change (Ascii.eqb "0" NUL) with false. cbv iota.
    rewrite strlen_no_nul by (apply is_bit_not_nul; exact Hbits). lia. }
  assert (Hbin : is_binary_literal ("0"%char :: p :: bs) = true).
  { unfold is_binary_literal. rewrite Hstr. unfold char_at. cbn [nth].
    fold (is_b p). rewrite Hp.
    destruct (Nat.ltb_spec 2 (2 + bit_length v)); [reflexivity | lia]. }
  rewrite (get_value_binary_cases _ Hbin), Hstr.
  destruct (Nat.ltb_spec 66 (2 + bit_length v)); [lia|].
  unfold binary_digits. rewrite Hstr. cbn [skipn].
  replace (2 + bit_length v - 2)%nat with (length bs) by lia.
  rewrite firstn_all, Hbits. unfold bs at 1.
  rewrite bits_value_bit_string. f_equal. apply Z.mod_small.
  destruct Hv. lia.
Qed.

Lemma print_binary_parses_back_witness :
  get_value ("0"%char :: "b"%char :: skipn 2 (print_binary "0" 300)) = Ok 300.
Proof.
  apply (print_binary_parses_back 300 "b").
  - unfold is_uint64, UINT64_MAX. lia.
  - reflexivity.
Defined.

(** *** Column widths *)

Lemma digits_length (base : Z) (fuel : nat) (n : Z) (k : nat) :
  2 <= base -> 0 <= n < base ^ Z.of_nat (S k) ->
  (length (digits base fuel n) <= S k)%nat.
Proof.
  intros Hb. revert n k. induction fuel as [|f IH]; intros n k Hn; simpl; [lia|].
  destruct (Z.ltb_spec n base) as [|Hge]; [simpl; lia|].
  rewrite length_app. simpl length.
  destruct k as [|k].
  - simpl Z.of_nat in Hn. rewrite Z.pow_1_r in Hn. lia.
  - specialize (IH (n / base) k).
    rewrite (Nat2Z.inj_succ (S k)), Z.pow_succ_r in Hn by lia.
    assert (0 <= n / base < base ^ Z.of_nat (S k)).
    { split; [apply Z.div_pos; lia|]. apply Z.div_lt_upper_bound; lia. }
    specialize (IH ltac:(assumption)). lia.
Qed.

Lemma pad_left_length (c : ascii) (w : nat) (s : cstr) :
  (length s <= w)%nat -> length (pad_left c w s) = w.
Proof.
  intros H. unfold pad_left. rewrite length_app, repeat_length. lia.
Qed.

Ltac pow_const :=
  repeat match goal with
         | |- context [?b ^ Z.of_nat ?k] =>
             let r := eval vm_compute in (b ^ Z.of_nat k) in
             change (b ^ Z.of_nat k) with r
         end.

(** The widths of the table are enough for every value of the band. *)
Lemma own_width_enough (v : Z) :
  is_uint64 v ->
  (length (fmt_u64 16 v) <= width_hex (data (get_multiplier v)))%nat /\
  (length (fmt_u64 10 v) <= width_dec (data (get_multiplier v)))%nat.
Proof.
  unfold is_uint64, UINT64_MAX, fmt_u64. intros Hv. rewrite !length_map.
  destruct (get_multiplier_cases v) as [H|[H|[H|[H|[H|[H|H]]]]]];
    destruct H as [Hb ->]; cbn [data width_hex width_dec];
    (split; (apply digits_length; [lia | pow_const; lia])).
Qed.

Lemma width_monotone (m m' : multipliers) :
  rank m <= rank m' ->
  (width_hex (data m) <= width_hex (data m'))%nat /\
  (width_dec (data m) <= width_dec (data m'))%nat.
Proof. destruct m, m'; simpl; lia. Qed.

(** X6: printed at the width of its own magnitude or of a larger one, a
    value fills exactly the hexadecimal and the decimal column: the widths
    of the table are never exceeded, so the columns of all lines of one
    run start at the same positions. *)
Theorem columns_fit (v : Z) (width : multipliers) :
  is_uint64 v -> rank (get_multiplier v) <= rank width ->
  length (format_hex v width) = (2 + width_hex (data width))%nat /\
  length (format_decimal v width) = width_dec (data width).
Proof.
  intros Hv Hw. destruct (own_width_enough v Hv) as [Hh Hd].
  destruct (width_monotone _ _ Hw) as [Mh Md].
  unfold format_hex, format_decimal. rewrite length_app.
  rewrite !pad_left_length by lia. split; reflexivity.
Qed.

Lemma columns_fit_witness :
  length (format_hex 1023 MEGA) = 10%nat /\
  length (format_decimal 1023 MEGA) = 10%nat.
Proof.
  apply (columns_fit 1023 MEGA).
  - unfold is_uint64, UINT64_MAX. lia.
  - vm_compute. discriminate.
Defined.

(** *** The size column *)

Lemma round_half_even_nonneg (a b : Z) :
  0 < b -> 0 <= a -> 0 <= round_half_even a b.
Proof.
  intros Hb Ha. unfold round_half_even.
  assert (0 <= a / b) by (apply Z.div_pos; lia).
  repeat match goal with |- context [if ?c then _ else _] => destruct c end; lia.
Qed.

Lemma round_half_even_le (a b k : Z) :
  0 < b -> a <= k * b -> round_half_even a b <= k.
Proof.
  intros Hb Ha. unfold round_half_even.
  pose proof (Z.div_mod a b ltac:(lia)) as Hdm.
  pose proof (Z.mod_pos_bound a b Hb) as Hm.
  assert (Hq : a / b <= k) by nia.
  assert (Hq1 : 0 < a mod b -> a / b + 1 <= k) by nia.
  destruct (Z.ltb_spec (2 * (a mod b)) b); [exact Hq|].
  destruct (Z.ltb_spec b (2 * (a mod b))); [apply Hq1; lia|].
  destruct (Z.even (a / b)); [exact Hq | apply Hq1; lia].
Qed.

(** Conversion to [double] does not pass the next power of two. *)
Lemma double_of_uint64_le_pow2 (v x : Z) :
  0 <= v < 2 ^ x -> 0 <= x ->
  0 <= double_of_uint64 v <= 2 ^ x.
Proof.
  intros Hv Hx. unfold double_of_uint64.
  destruct (Z.ltb_spec v (2 ^ 53)) as [|Hbig]; [lia|].
  assert (Hl : 53 <= Z.log2 v) by (apply Z.log2_le_pow2; lia).
  assert (Hu : Z.log2 v < x) by (apply Z.log2_lt_pow2; lia).
  set (e := Z.log2 v - 52).
  assert (Hp : 0 < 2 ^ e) by (apply Z.pow_pos_nonneg; lia).
  assert (Hsplit : 2 ^ x = 2 ^ (x - e) * 2 ^ e)
    by (rewrite <- Z.pow_add_r by lia; f_equal; lia).
  pose proof (round_half_even_nonneg v (2 ^ e) Hp ltac:(lia)).
  pose proof (round_half_even_le v (2 ^ e) (2 ^ (x - e)) Hp ltac:(lia)).
  rewrite Hsplit. split; [nia|].
  apply Z.mul_le_mono_nonneg_r; lia.
Qed.

(** The scaled size never reaches 1024.05: [double (v)] is at most 1024
    times the multiplier of the magnitude of [v]. *)
Lemma double_of_uint64_scaled (v : Z) :
  is_uint64 v ->
  0 <= double_of_uint64 v <= 1024 * multi (data (get_multiplier v)).
Proof.
  unfold is_uint64, UINT64_MAX. intros Hv.
  destruct (get_multiplier_cases v) as [H|[H|[H|[H|[H|[H|H]]]]]];
    destruct H as [Hb ->]; cbn [data multi]; unfold EB, PB, TB, GB, MB, KB.
  - pose proof (double_of_uint64_le_pow2 v 10 ltac:(lia) ltac:(lia)). lia.
  - pose proof (double_of_uint64_le_pow2 v 20 ltac:(lia) ltac:(lia)). lia.
  - pose proof (double_of_uint64_le_pow2 v 30 ltac:(lia) ltac:(lia)). lia.
  - pose proof (double_of_uint64_le_pow2 v 40 ltac:(lia) ltac:(lia)). lia.
  - pose proof (double_of_uint64_le_pow2 v 50 ltac:(lia) ltac:(lia)). lia.
  - pose proof (double_of_uint64_le_pow2 v 60 ltac:(lia) ltac:(lia)). lia.
  - pose proof (double_of_uint64_le_pow2 v 64 ltac:(lia) ltac:(lia)). lia.
Qed.

Lemma multi_pos (m : multipliers) : 0 < multi (data m).
Proof. destruct m; reflexivity. Qed.

(** The tenths printed by [print_size]. *)
Lemma size_tenths_range (v : Z) :
  is_uint64 v ->
  0 <= round_half_even (double_of_uint64 v * 10)
         (multi (data (get_multiplier v))) <= 10240.
Proof.
  intros Hv. pose proof (double_of_uint64_scaled v Hv) as Hd.
  pose proof (multi_pos (get_multiplier v)) as Hm.
  split.
  - apply round_half_even_nonneg; lia.
  - apply round_half_even_le; lia.
Qed.

(** The number of the size column fills its 6 positions and no more. *)
Lemma size_number_length (v : Z) :
  0 <= v <= UINT64_MAX ->
  length (fmt_f1 6 (double_of_uint64 v) (multi (data (get_multiplier v))))
  = 6%nat.
Proof.
  intros Hv. pose proof (size_tenths_range v Hv) as Ht.
  unfold fmt_f1. apply pad_left_length.
  rewrite length_app. cbn [length]. unfold fmt_u64. rewrite length_map.
  set (t := round_half_even (double_of_uint64 v * 10)
              (multi (data (get_multiplier v)))) in *.
  assert (0 <= t / 10 < 10 ^ Z.of_nat 4).
  { split; [apply Z.div_pos; lia|].
    apply Z.div_lt_upper_bound; [lia|]. pow_const. lia. }
  pose proof (digits_length 10 64 (t / 10) 3 ltac:(lia) ltac:(assumption)).
  lia.
Qed.

(** X7: the size column always has 7 characters: the scaled value is
    below 1024.05, so it fits the 6 positions of its format, and one
    letter follows. *)
Theorem print_size_length (v : Z) :
  is_uint64 v -> length (print_size v) = 7%nat.
Proof.
  intros Hv. unfold print_size.
  rewrite length_app, (size_number_length v Hv). reflexivity.
Qed.

Lemma print_size_length_witness :
  length (print_size 18446744073709551615) = 7%nat /\
  length (print_size 1048575) = 7%nat.
Proof.
  split.
  - apply (print_size_length 18446744073709551615).
    unfold is_uint64, UINT64_MAX. lia.
  - apply (print_size_length 1048575).
    unfold is_uint64, UINT64_MAX. lia.
Defined.

(** *** One line per value *)

Lemma count_lines_app (a b : cstr) :
  count_lines (a ++ b) = (count_lines a + count_lines b)%nat.
Proof. unfold count_lines. rewrite filter_app, length_app. reflexivity. Qed.

Lemma count_lines_none (l : cstr) :
  Forall (fun c => c <> LF) l -> count_lines l = 0%nat.
Proof.
  unfold count_lines. intros H. induction H as [|c l Hc _ IH]; [reflexivity|].
  simpl. destruct (Ascii.eqb_spec c LF); [contradiction | exact IH].
Qed.

Lemma digit_char_not_lf (d : Z) : 0 <= d < 16 -> digit_char d <> LF.
Proof.
  intros Hd E. pose proof (digit_char_value d Hd) as H.
  rewrite E in H. vm_compute in H. discriminate H.
Qed.

Lemma fmt_u64_no_lf (base v : Z) :
  2 <= base <= 16 -> 0 <= v -> Forall (fun c => c <> LF) (fmt_u64 base v).
Proof.
  intros Hb Hv. unfold fmt_u64. apply Forall_map.
  eapply Forall_impl; [|apply (digits_range base 64 v); lia].
  simpl. intros d Hd. apply digit_char_not_lf. lia.
Qed.

Lemma pad_left_no_lf (c : ascii) (w : nat) (s : cstr) :
  c <> LF -> Forall (fun c => c <> LF) s ->
  Forall (fun c => c <> LF) (pad_left c w s).
Proof.
  intros Hc Hs. unfold pad_left. apply Forall_app. split; [|exact Hs].
  apply Forall_forall. intros x Hx. apply repeat_spec in Hx. subst x. exact Hc.
Qed.

Lemma value_line_one_lf (zero_ch : ascii) (show_bin : bool)
  (width : multipliers) (v : Z) :
  zero_ch <> LF -> 0 <= v <= UINT64_MAX ->
  count_lines (value_line zero_ch show_bin width v) = 1%nat.
Proof.
  intros Hz Hv. unfold value_line.
  pose proof (size_tenths_range v Hv) as Ht.
  assert (Hbody : forall a b, count_lines a = 0%nat -> count_lines b = 1%nat ->
                              count_lines (a ++ b) = 1%nat)
    by (intros a b Ha Hb; rewrite count_lines_app; lia).
  repeat apply Hbody; try reflexivity.
  - apply count_lines_none, pad_left_no_lf; [discriminate|].
    apply fmt_u64_no_lf; lia.
  - apply count_lines_none, pad_left_no_lf; [discriminate|].
    apply fmt_u64_no_lf; lia.
  - apply count_lines_none. unfold fmt_f1. apply pad_left_no_lf; [discriminate|].
    apply Forall_app. split.
    + apply fmt_u64_no_lf; [lia|]. apply Z.div_pos; lia.
    + constructor; [discriminate|]. constructor; [|constructor].
      apply digit_char_not_lf.
      pose proof (Z.mod_pos_bound
                    (round_half_even (double_of_uint64 v * 10)
                       (multi (data (get_multiplier v)))) 10 ltac:(lia)).
      lia.
  - destruct (get_multiplier v); reflexivity.
  - destruct show_bin; [|reflexivity].
    apply count_lines_none. apply Forall_app. split; [repeat constructor; discriminate|].
    unfold bit_string. apply Forall_map, Forall_forall. intros i _.
    destruct (Z.testbit v (Z.of_nat (bit_length v - 1 - i)));
      [discriminate | exact Hz].
Qed.

Lemma zero_ch_of_not_lf (argv : list cstr) : zero_ch_of argv <> LF.
Proof.
  unfold zero_ch_of, mode_of.
  repeat match goal with |- context [if ?c then _ else _] => destruct c end;
    discriminate.
Qed.

Lemma parse_to_range (args : list cstr) (vs : list Z) :
  parse_to args vs -> Forall (fun v => 0 <= v <= UINT64_MAX) vs.
Proof.
  intros H. induction H as [|a v args vs Ha _ IH]; constructor; [|exact IH].
  destruct (is_binary_literal a) eqn:Hb;
    [exact (get_value_binary_range a v Hb Ha)
    | exact (get_value_plain_range a v Hb Ha)].
Qed.

(** X8: when all value arguments parse, the output has exactly one line
    per value argument: no value is dropped and no line is broken. *)
Theorem main_one_line_per_value (argv : list cstr) (vs : list Z) :
  value_args argv <> [] -> parse_to (value_args argv) vs ->
  count_lines (stdout (main argv)) = length (value_args argv).
Proof.
  intros Hne Hp. rewrite (main_values argv vs Hne Hp). cbn [stdout].
  rewrite (Forall2_length Hp).
  pose proof (parse_to_range _ _ Hp) as Hr. clear Hp Hne.
  generalize (max_width vs BYTE). intros width.
  induction Hr as [|v vs Hv _ IH]; [reflexivity|].
  cbn [map concat length]. rewrite count_lines_app, IH.
  rewrite value_line_one_lf; [reflexivity | apply zero_ch_of_not_lf | exact Hv].
Qed.

Lemma main_one_line_per_value_witness :
  count_lines (stdout (main [str "xvalues"; str "-b"; str "0x10"; str "3T"; str "-1"]))
  = 3%nat.
Proof.
  apply (main_one_line_per_value
           [str "xvalues"; str "-b"; str "0x10"; str "3T"; str "-1"]
           [16; 3298534883328; 18446744073709551615]).
  - discriminate.
  - repeat constructor.
Defined.

(** *** The outcomes of [main] *)

Lemma args_parse_or_fail (args : list cstr) :
  Forall (fun a => exists v, get_value a = Ok v) args \/
  Exists (fun a => exists e, get_value a = Err e) args.
Proof.
  induction args as [|a args [IH|IH]].
  - left. constructor.
  - destruct (get_value a) as [v|e] eqn:E.
    + left. constructor; [exists v; exact E | exact IH].
    + right. apply Exists_cons_hd. exists e. exact E.
  - right. apply Exists_cons_tl. exact IH.
Qed.

Lemma main_no_values (argv : list cstr) :
  value_args argv = [] ->
  main argv
  = mk_process (print_all (zero_ch_of argv) (show_bin_of argv)) [] EXIT_SUCCESS.
Proof.
  unfold value_args, zero_ch_of, show_bin_of, main.
  destruct (mode_of argv) as [[show_bin first] zero_ch]. simpl fst. simpl snd.
  intros H. apply (f_equal (@length cstr)) in H. rewrite length_skipn in H.
  simpl in H. destruct (Nat.leb_spec (length argv) first); [reflexivity | lia].
Qed.

Lemma main_error (argv : list cstr) :
  Exists (fun a => exists e, get_value a = Err e) (value_args argv) ->
  exists a e, In a (value_args argv) /\ get_value a = Err e /\
              main argv = mk_process [] (error_message a e) EXIT_FAILURE.
Proof.
  unfold value_args, main.
  destruct (mode_of argv) as [[show_bin first] zero_ch]. simpl fst. simpl snd.
  intros Hex.
  destruct (Nat.leb_spec (length argv) first) as [Hle|_].
  { rewrite skipn_all2 in Hex by exact Hle. inversion Hex. }
  destruct (width_pass_error _ BYTE Hex) as (a & e & Hin & Hget & ->).
  exists a, e. repeat split; assumption.
Qed.

Lemma print_all_nonempty (zero_ch : ascii) (show_bin : bool) :
  print_all zero_ch show_bin <> [].
Proof. vm_compute. discriminate. Qed.

(** X9: a run of [main] has one of two shapes: status 0 with lines on
    [stdout] and nothing on [stderr], or the failure status with nothing on
    [stdout] and the message of one argument on [stderr].  It never writes
    to both streams. *)
Theorem main_outcome (argv : list cstr) :
  (status (main argv) = EXIT_SUCCESS /\ stderr (main argv) = [] /\
   stdout (main argv) <> []) \/
  (status (main argv) = EXIT_FAILURE /\ stdout (main argv) = [] /\
   exists a e, In a (value_args argv) /\ get_value a = Err e /\
               stderr (main argv) = error_message a e).
Proof.
  destruct (args_parse_or_fail (value_args argv)) as [Hall|Hex].
  - left. destruct (value_args argv) as [|a args] eqn:Ev.
    + rewrite (main_no_values argv Ev). cbn [status stderr stdout].
      repeat split. apply print_all_nonempty.
    + destruct (all_parse_to _ Hall) as [vs Hvs].
      rewrite <- Ev in Hvs.
      rewrite (main_values argv vs); [|rewrite Ev; discriminate | exact Hvs].
      cbn [status stderr stdout]. repeat split.
      rewrite Ev in Hvs. inversion Hvs as [|? v ? vs' _ _]; subst.
      cbn [map concat]. unfold value_line at 1. discriminate.
  - right. destruct (main_error argv Hex) as (a & e & Hin & Hget & ->).
    cbn [status stderr stdout]. repeat split.
    exists a, e. repeat split; assumption.
Qed.

(** *** The order of the arguments *)

Lemma same_width_refl (r : cstr + multipliers) : same_width r r.
Proof. destruct r; simpl; trivial. Qed.

Lemma same_width_trans (r1 r2 r3 : cstr + multipliers) :
  same_width r1 r2 -> same_width r2 r3 -> same_width r1 r3.
Proof.
  destruct r1, r2, r3; simpl; try tauto. intros -> ->. reflexivity.
Qed.

Lemma widen_swap (w a b : multipliers) :
  (let w1 := if rank w <? rank a then a else w in
   if rank w1 <? rank b then b else w1)
  = (let w1 := if rank w <? rank b then b else w in
     if rank w1 <? rank a then a else w1).
Proof. destruct w, a, b; reflexivity. Qed.

(** X12: reordering the value arguments changes neither whether the
    width loop of [main] fails nor the width it finds. *)
Theorem width_pass_order (args args' : list cstr) (width : multipliers) :
  Permutation args args' ->
  same_width (width_pass args width) (width_pass args' width).
Proof.
  intros H. revert width.
  induction H as [|x l l' _ IH|x y l|l1 l2 l3 _ IH1 _ IH2]; intros width.
  - apply same_width_refl.
  - cbn [width_pass]. destruct (get_value x); [apply IH | exact I].
  - cbn [width_pass].
    destruct (get_value x) as [vx|ex], (get_value y) as [vy|ey]; try exact I.
    pose proof (widen_swap width (get_multiplier vy) (get_multiplier vx)) as E.
    cbv zeta in E. rewrite E. apply same_width_refl.
  - eapply same_width_trans; [apply IH1 | apply IH2].
Qed.

Lemma width_pass_order_witness :
  same_width (width_pass [str "1"; str "1M"; str "2K"] BYTE)
             (width_pass [str "1M"; str "2K"; str "1"] BYTE).
Proof.
  apply width_pass_order.
  apply Permutation_cons_append with (l := [str "1M"; str "2K"]).
Defined.

(** *** Aligned lines *)

Lemma split_lines_line (b rest cur : cstr) :
  Forall (fun c => c <> LF) b ->
  split_lines (b ++ LF :: rest) cur = (rev cur ++ b) :: split_lines rest [].
Proof.
  intros H. revert cur. induction H as [|c b Hc _ IH]; intros cur.
  - simpl. rewrite app_nil_r. reflexivity.
  - cbn [app split_lines]. destruct (Ascii.eqb_spec c LF); [contradiction|].
    rewrite IH. cbn [rev]. rewrite <- app_assoc. reflexivity.
Qed.

Lemma lines_of_lines (bodies : list cstr) :
  Forall (Forall (fun c => c <> LF)) bodies ->
  lines_of (concat (map (fun b => b ++ [LF]) bodies)) = bodies.
Proof.
  unfold lines_of. intros H. induction H as [|b bodies Hb _ IH]; [reflexivity|].
  cbn [map concat]. rewrite <- app_assoc. cbn [app].
  rewrite split_lines_line by exact Hb. rewrite IH. reflexivity.
Qed.

Lemma value_line_split (zero_ch : ascii) (width : multipliers) (v : Z) :
  value_line zero_ch false width v = value_line_body width v ++ [LF].
Proof.
  unfold value_line, value_line_body. rewrite <- !app_assoc. reflexivity.
Qed.

Lemma Forall_no_lf_app (a b : cstr) :
  Forall (fun c => c <> LF) a -> Forall (fun c => c <> LF) b ->
  Forall (fun c => c <> LF) (a ++ b).
Proof. intros Ha Hb. apply Forall_app. split; assumption. Qed.

Lemma value_line_body_no_lf (width : multipliers) (v : Z) :
  0 <= v <= UINT64_MAX -> Forall (fun c => c <> LF) (value_line_body width v).
Proof.
  intros Hv. pose proof (size_tenths_range v Hv) as Ht.
  unfold value_line_body.
  apply Forall_no_lf_app; [repeat constructor; discriminate|].
  apply Forall_no_lf_app;
    [apply pad_left_no_lf; [discriminate | apply fmt_u64_no_lf; lia]|].
  apply Forall_no_lf_app; [repeat constructor; discriminate|].
  apply Forall_no_lf_app;
    [apply pad_left_no_lf; [discriminate | apply fmt_u64_no_lf; lia]|].
  apply Forall_no_lf_app; [repeat constructor; discriminate|].
  apply Forall_no_lf_app.
  - unfold fmt_f1. apply pad_left_no_lf; [discriminate|].
    apply Forall_no_lf_app.
    + apply fmt_u64_no_lf; [lia|]. apply Z.div_pos; lia.
    + constructor; [discriminate|]. constructor; [|constructor].
      apply digit_char_not_lf.
      pose proof (Z.mod_pos_bound
                    (round_half_even (double_of_uint64 v * 10)
                       (multi (data (get_multiplier v)))) 10 ltac:(lia)).
      lia.
  - constructor; [|constructor]. destruct (get_multiplier v); discriminate.
Qed.

Lemma firstn_exact (a r : cstr) (n : nat) :
  length a = n -> firstn n (a ++ r) = a.
Proof.
  intros <-. rewrite firstn_app, Nat.sub_diag, firstn_all. simpl.
  apply app_nil_r.
Qed.

Lemma skipn_exact (a r : cstr) (n : nat) :
  length a = n -> skipn n (a ++ r) = r.
Proof.
  intros <-. rewrite skipn_app, Nat.sub_diag, skipn_all. reflexivity.
Qed.

Lemma char_at_exact (a r : cstr) (c : ascii) (n : nat) :
  length a = n -> char_at (a ++ c :: r) n = c.
Proof.
  intros <-. unfold char_at. rewrite app_nth2, Nat.sub_diag by lia. reflexivity.
Qed.

Lemma pad_left_blank_or_digit (w : nat) (v : Z) :
  0 <= v <= UINT64_MAX ->
  forallb is_blank_or_digit (pad_left " " w (fmt_u64 10 v)) = true.
Proof.
  intros Hv. unfold pad_left. rewrite forallb_app. apply andb_true_intro. split.
  - apply forallb_forall. intros c Hc. apply repeat_spec in Hc. subst c.
    reflexivity.
  - destruct (fmt_u64_spec 10 v ltac:(lia) Hv) as (Hds & _).
    rewrite forallb_forall in *. intros c Hc. unfold is_blank_or_digit.
    rewrite (Hds c Hc). apply orb_true_r.
Qed.

(** The columns of a line printed at a width that is enough for it. *)
Lemma value_line_body_columns (width : multipliers) (v : Z) :
  0 <= v <= UINT64_MAX -> rank (get_multiplier v) <= rank width ->
  let l := value_line_body width v in
  let wh := width_hex (data width) in
  let wd := width_dec (data width) in
  length l = (wh + wd + 11)%nat /\
  firstn 2 l = str "0x" /\
  forallb (is_digit_in 16) (firstn wh (skipn 2 l)) = true /\
  char_at l (2 + wh) = " "%char /\
  forallb is_blank_or_digit (firstn wd (skipn (3 + wh) l)) = true /\
  char_at l (3 + wh + wd) = " "%char.
Proof.
  intros Hv Hw. cbv zeta.
  destruct (own_width_enough v Hv) as [Hh Hd].
  destruct (width_monotone _ _ Hw) as [Mh Md].
  pose proof (size_number_length v Hv) as Hs.
  unfold value_line_body.
  set (H := pad_left "0" (width_hex (data width)) (fmt_u64 16 v)).
  set (D := pad_left " " (width_dec (data width)) (fmt_u64 10 v)).
  set (S := fmt_f1 6 (double_of_uint64 v) (multi (data (get_multiplier v)))) in *.
  assert (LH : length H = width_hex (data width))
    by (apply pad_left_length; lia).
  assert (LD : length D = width_dec (data width))
    by (apply pad_left_length; lia).
  split; [rewrite !length_app, LH, LD, Hs; cbn [length str list_ascii_of_string]; lia|].
  split; [reflexivity|].
  split.
  { cbn [str list_ascii_of_string app skipn]. rewrite firstn_exact by exact LH.
    unfold H. destruct (fmt_u64_spec 16 v ltac:(lia) Hv) as (Hds & _).
    unfold pad_left. rewrite forallb_zeros by lia. exact Hds. }
  split.
  { change (str "0x" ++ H ++ str " " ++ D ++ str " " ++ S
            ++ [suffix (data (get_multiplier v))])
      with (("0"%char :: "x"%char :: H)
            ++ " "%char :: D ++ str " " ++ S
            ++ [suffix (data (get_multiplier v))]).
    apply char_at_exact. simpl. lia. }
  split.
  { change (str "0x" ++ H ++ str " " ++ D ++ str " " ++ S
            ++ [suffix (data (get_multiplier v))])
      with (("0"%char :: "x"%char :: H)
            ++ " "%char :: D ++ str " " ++ S
            ++ [suffix (data (get_multiplier v))]).
    replace (("0"%char :: "x"%char :: H)
             ++ " "%char :: D ++ str " " ++ S
             ++ [suffix (data (get_multiplier v))])
      with ((("0"%char :: "x"%char :: H) ++ [" "%char])
            ++ D ++ str " " ++ S ++ [suffix (data (get_multiplier v))])
      by (rewrite <- app_assoc; reflexivity).
    rewrite skipn_exact by (rewrite length_app; simpl; lia).
    rewrite firstn_exact by exact LD.
    apply pad_left_blank_or_digit. exact Hv. }
  replace (str "0x" ++ H ++ str " " ++ D ++ str " " ++ S
           ++ [suffix (data (get_multiplier v))])
    with ((("0"%char :: "x"%char :: H) ++ " "%char :: D)
          ++ " "%char :: S ++ [suffix (data (get_multiplier v))])
    by (rewrite <- app_assoc; reflexivity).
  apply char_at_exact. rewrite length_app. simpl. lia.
Qed.

(** X13: in a run without bit field whose arguments all parse, the lines
    of the output (split at the newlines) are as many as the value
    arguments and all have the same layout, that of the widest magnitude:
    [0x], then [width_hex] hexadecimal digits, a blank, [width_dec] blanks
    or decimal digits, a blank, and 7 more characters; so the lines have
    the same length and their columns are aligned. *)
Theorem main_lines_aligned (argv : list cstr) (vs : list Z) :
  value_args argv <> [] -> parse_to (value_args argv) vs ->
  show_bin_of argv = false ->
  length (lines_of (stdout (main argv))) = length (value_args argv) /\
  Forall
    (fun l =>
       length l
       = (width_hex (data (max_width vs BYTE))
          + width_dec (data (max_width vs BYTE)) + 11)%nat /\
       firstn 2 l = str "0x" /\
       forallb (is_digit_in 16)
         (firstn (width_hex (data (max_width vs BYTE))) (skipn 2 l)) = true /\
       char_at l (2 + width_hex (data (max_width vs BYTE))) = " "%char /\
       forallb is_blank_or_digit
         (firstn (width_dec (data (max_width vs BYTE)))
            (skipn (3 + width_hex (data (max_width vs BYTE))) l)) = true /\
       char_at l (3 + width_hex (data (max_width vs BYTE))
                  + width_dec (data (max_width vs BYTE))) = " "%char)
    (lines_of (stdout (main argv))).
Proof.
  intros Hne Hp Hsb.
  pose proof (parse_to_range _ _ Hp) as Hr.
  rewrite (main_values argv vs Hne Hp), Hsb. cbn [stdout].
  assert (E : map (value_line (zero_ch_of argv) false (max_width vs BYTE)) vs
              = map (fun b => b ++ [LF])
                  (map (value_line_body (max_width vs BYTE)) vs)).
  { rewrite map_map. apply map_ext. intros v. apply value_line_split. }
  rewrite E, lines_of_lines.
  2:{ apply Forall_map. eapply Forall_impl; [|exact Hr].
      intros v Hv. apply value_line_body_no_lf. exact Hv. }
  split; [rewrite length_map; symmetry; exact (Forall2_length Hp)|].
  apply Forall_map, Forall_forall. intros v Hin.
  rewrite Forall_forall in Hr.
  exact (value_line_body_columns (max_width vs BYTE) v (Hr v Hin)
           (proj2 (max_width_ge vs BYTE) v Hin)).
Qed.

Lemma main_lines_aligned_witness :
  lines_of (stdout (main [str "xvalues"; str "1"; str "0x100000"]))
  = [str "0x00000001          1    1.0b"; str "0x00100000    1048576    1.0M"] /\
  length (lines_of (stdout (main [str "xvalues"; str "1"; str "0x100000"])))
  = 2%nat /\
  Forall
    (fun l =>
       length l = 29%nat /\
       firstn 2 l = str "0x" /\
       forallb (is_digit_in 16) (firstn 8 (skipn 2 l)) = true /\
       char_at l 10 = " "%char /\
       forallb is_blank_or_digit (firstn 10 (skipn 11 l)) = true /\
       char_at l 21 = " "%char)
    (lines_of (stdout (main [str "xvalues"; str "1"; str "0x100000"]))).
Proof.
  split; [vm_compute; reflexivity|].
  apply (main_lines_aligned [str "xvalues"; str "1"; str "0x100000"]
           [1; 1048576]).
  - discriminate.
  - repeat constructor.
  - reflexivity.
Defined.

(** *** White space and signs in front of an argument *)

Lemma strtoull_white (ws s : cstr) :
  forallb isspace ws = true ->
  strtoull (ws ++ s) = shift_endptr (length ws) (strtoull s).
Proof.
  intros H. induction ws as [|c ws IH]; simpl.
  - unfold shift_endptr. destruct (strtoull s) as [v [|p]]; reflexivity.
  - simpl in H. apply andb_prop in H as [Hc Hws].
    rewrite strtoull_space by exact Hc. rewrite IH by exact Hws.
    unfold shift_endptr. destruct (strtoull s) as [v [|p]]; simpl; [reflexivity|].
    replace (length ws + S p)%nat with (S (length ws + p)) by lia. reflexivity.
Qed.

(** X14: white space in front of a non-binary argument with a numeric
    part is skipped: the value is the same, and a bad suffix is reported at
    its position in the whole argument. *)
Theorem get_value_leading_space (ws s : cstr) :
  forallb isspace ws = true ->
  is_binary_literal s = false ->
  endptr (strtoull s) <> 0%nat ->
  get_value (ws ++ s)
  = match get_value s with
    | Err (InvalidSuffix p) => Err (InvalidSuffix (length ws + p))
    | r => r
    end.
Proof.
  intros Hws Hb Hp.
  assert (Hbin : is_binary_literal (ws ++ s) = false).
  { destruct ws as [|c ws]; [exact Hb|]. simpl in Hws.
    apply andb_prop in Hws as [Hc _].
    unfold is_binary_literal, char_at. cbn [app nth].
    destruct (Ascii.eqb_spec c "0") as [->|_]; [discriminate Hc|].
    rewrite andb_false_r. reflexivity. }
  unfold get_value. rewrite Hbin, Hb, (strtoull_white ws s Hws).
  unfold shift_endptr.
  destruct (strtoull s) as [v [|p]]; [contradiction|]. cbn [endptr value].
  replace (char_at (ws ++ s) (length ws + S p)) with (char_at s (S p)).
  2:{ unfold char_at. rewrite app_nth2 by lia. f_equal. lia. }
  destruct (Ascii.eqb (char_at s (S p)) NUL); [reflexivity|].
  destruct (suffix_multiplier (char_at s (S p))); reflexivity.
Qed.

Lemma get_value_leading_space_witness :
  get_value (str "  7m") = Ok 7340032 /\
  get_value (str " 7x") = Err (InvalidSuffix 2).
Proof.
  split.
  - apply (get_value_leading_space (str "  ") (str "7m"));
      [reflexivity | reflexivity | discriminate].
  - apply (get_value_leading_space (str " ") (str "7x"));
      [reflexivity | reflexivity | discriminate].
Defined.

(** X15: a binary literal is recognised only at the very start of the
    argument: behind one white-space character or sign it is read as the
    number 0 followed by the letter b, and rejected at position 2. *)
Theorem binary_literal_not_at_start (c : ascii) (s : cstr) :
  is_binary_literal s = true ->
  isspace c = true \/ c = "-"%char \/ c = "+"%char ->
  get_value (c :: s) = Err (InvalidSuffix 2).
Proof.
  intros Hb Hc.
  assert (Hc0 : Ascii.eqb c "0" = false).
  { destruct (Ascii.eqb_spec c "0") as [->|]; [|reflexivity].
    destruct Hc as [H|[H|H]]; discriminate H. }
  unfold is_binary_literal in Hb.
  apply andb_prop in Hb as [Hb Hb1]. apply andb_prop in Hb as [_ Hb0].
  destruct s as [|c0 [|c1 s]]; try (vm_compute in Hb0; discriminate Hb0).
  { unfold char_at in Hb1. simpl in Hb1. discriminate Hb1. }
  unfold char_at in Hb0, Hb1. cbn [nth] in Hb0, Hb1.
  apply Ascii.eqb_eq in Hb0. subst c0.
  assert (Hst : strtoull (c :: "0"%char :: c1 :: s) = mk_strtoull 0 2).
  { destruct Hc as [Hsp|Hsg].
    - rewrite strtoull_space by exact Hsp.
      apply orb_prop in Hb1 as [E|E]; apply Ascii.eqb_eq in E; subst c1;
        reflexivity.
    - apply orb_prop in Hb1 as [E|E]; apply Ascii.eqb_eq in E; subst c1;
        destruct Hsg as [-> | ->]; reflexivity. }
  unfold get_value.
  replace (is_binary_literal (c :: "0"%char :: c1 :: s)) with false
    by (unfold is_binary_literal, char_at; cbn [nth]; rewrite Hc0, andb_false_r;
        reflexivity).
  rewrite Hst. cbn [endptr value]. unfold char_at. cbn [nth].
  apply orb_prop in Hb1 as [E|E]; apply Ascii.eqb_eq in E; subst c1; reflexivity.
Qed.

Lemma binary_literal_not_at_start_witness :
  get_value (str "-0b101") = Err (InvalidSuffix 2) /\
  get_value (str " 0B1") = Err (InvalidSuffix 2).
Proof.
  split.
  - apply (binary_literal_not_at_start "-" (str "0b101"));
      [reflexivity | right; left; reflexivity].
  - apply (binary_literal_not_at_start " " (str "0B1"));
      [reflexivity | left; reflexivity].
Defined.

(** *** [strtoull] stays inside the string *)

Lemma isspace_not_nul (c : ascii) : isspace c = true -> Ascii.eqb c NUL = false.
Proof.
  intros H. destruct (Ascii.eqb_spec c NUL) as [->|]; [discriminate H | reflexivity].
Qed.

Lemma skip_space_strlen (s : cstr) :
  strlen s = (skip_space s + strlen (skipn (skip_space s) s))%nat.
Proof.
  induction s as [|c s IH]; [reflexivity|].
  cbn [skip_space]. destruct (isspace c) eqn:Hc; [|reflexivity].
  cbn [skipn strlen]. rewrite (isspace_not_nul c Hc). lia.
Qed.

Lemma sign_of_strlen (s : cstr) (neg : bool) (sg : nat) :
  sign_of s = (neg, sg) -> strlen s = (sg + strlen (skipn sg s))%nat.
Proof.
  unfold sign_of. destruct s as [|c s]; [intros H; inversion H; reflexivity|].
  destruct (Ascii.eqb_spec c "-") as [->|_]; [intros H; inversion H; reflexivity|].
  destruct (Ascii.eqb_spec c "+") as [->|_]; intros H; inversion H; reflexivity.
Qed.

Lemma base_of_strlen (s : cstr) (base : Z) (pre : nat) :
  base_of s = (base, pre) ->
  strlen s = (pre + strlen (skipn pre s))%nat /\
  (pre = 2%nat -> (1 <= strlen s)%nat) /\ (pre = 0%nat \/ pre = 2%nat).
Proof.
  unfold base_of, char_at.
  destruct (Ascii.eqb_spec (nth 0 s NUL) "0") as [E0|_].
  2:{ intros H; inversion H. repeat split; [lia | left; reflexivity]. }
  destruct (Ascii.eqb (nth 1 s NUL) "x" || Ascii.eqb (nth 1 s NUL) "X") eqn:Ex.
  2:{ intros H; inversion H. repeat split; [lia | left; reflexivity]. }
  intros H; inversion H; subst base pre; clear H.
  destruct s as [|c0 [|c1 s]]; try (vm_compute in Ex; discriminate Ex).
  cbn [nth] in E0, Ex. subst c0. cbn [strlen skipn].
  change (Ascii.eqb "0" NUL) with false. cbv iota.
  assert (Hn : Ascii.eqb c1 NUL = false).
  { destruct (Ascii.eqb_spec c1 NUL) as [->|]; [discriminate Ex | reflexivity]. }
  rewrite Hn. repeat split; [lia | right; reflexivity].
Qed.

Lemma scan_digits_strlen (base : Z) (s : cstr) (acc : Z) (ovf : bool) :
  (snd (scan_digits base s acc ovf) <= strlen s)%nat.
Proof.
  revert acc ovf. induction s as [|c s IH]; intros acc ovf; simpl; [lia|].
  destruct (digit_in base c) as [d|] eqn:Hd; [|simpl; lia].
  assert (Hn : Ascii.eqb c NUL = false).
  { unfold digit_in in Hd. destruct (digit_value c) as [d'|] eqn:Hv; [|discriminate].
    destruct (digit_value_plain c d' Hv) as (_ & _ & _ & H). exact H. }
  rewrite Hn.
  destruct (ovf || (UINT64_MAX <? acc * base + d)).
  - specialize (IH acc true).
    destruct (scan_digits base s acc true) as [[a o] n]. simpl in *. lia.
  - specialize (IH (acc * base + d) false).
    destruct (scan_digits base s (acc * base + d) false) as [[a o] n].
    simpl in *. lia.
Qed.

Lemma strtoull_endptr_le (s : cstr) : (endptr (strtoull s) <= strlen s)%nat.
Proof.
  unfold strtoull.
  pose proof (skip_space_strlen s) as H1.
  destruct (sign_of (skipn (skip_space s) s)) as [neg sg] eqn:Esg.
  pose proof (sign_of_strlen _ _ _ Esg) as H2.
  destruct (base_of (skipn sg (skipn (skip_space s) s))) as [base pre] eqn:Eb.
  destruct (base_of_strlen _ _ _ Eb) as (H3 & H4 & H5).
  pose proof (scan_digits_strlen base
                (skipn pre (skipn sg (skipn (skip_space s) s))) 0 false) as H6.
  destruct (scan_digits base _ 0 false) as [[a o] n]. simpl in H6.
  destruct n as [|n].
  - destruct (Nat.eqb_spec pre 2) as [E|_]; simpl; [|lia].
    specialize (H4 E). lia.
  - simpl. lia.
Qed.

Lemma char_at_strlen (s : cstr) : char_at s (strlen s) = NUL.
Proof.
  unfold char_at. induction s as [|c s IH]; [reflexivity|].
  simpl. destruct (Ascii.eqb_spec c NUL) as [->|_]; [reflexivity | exact IH].
Qed.

(** X16: [get_value] examines a character inside the argument or its
    terminator, never one beyond it; a position reported with
    InvalidSuffix is that of a character of the argument. *)
Theorem get_value_position_in_bounds (s : cstr) :
  (endptr (strtoull s) <= strlen s)%nat /\
  forall p, get_value s = Err (InvalidSuffix p) ->
            (p < strlen s)%nat /\ char_at s p <> NUL /\
            suffix_multiplier (char_at s p) = None.
Proof.
  split; [apply strtoull_endptr_le|].
  intros p H. destruct (is_binary_literal s) eqn:Hb.
  - rewrite (get_value_binary_cases s Hb) in H.
    destruct (66 <? strlen s)%nat; [discriminate H|].
    destruct (forallb is_bit (binary_digits s)); discriminate H.
  - unfold get_value in H. rewrite Hb in H.
    destruct (Ascii.eqb_spec (char_at s (endptr (strtoull s))) NUL) as [|Hn];
      [discriminate H|].
    destruct (suffix_multiplier (char_at s (endptr (strtoull s)))) eqn:Es;
      [discriminate H|].
    inversion H; subst p. split; [|split; assumption].
    pose proof (strtoull_endptr_le s) as Hle.
    destruct (Nat.eq_dec (endptr (strtoull s)) (strlen s)) as [E|]; [|lia].
    rewrite E, char_at_strlen in Hn. contradiction.
Qed.

Lemma get_value_position_in_bounds_witness :
  (2 < strlen (str "12;"))%nat /\ char_at (str "12;") 2 <> NUL /\
  suffix_multiplier (char_at (str "12;") 2) = None.
Proof.
  apply (proj2 (get_value_position_in_bounds (str "12;")) 2%nat). reflexivity.
Defined.

(** *** From a suffixed argument to its size column *)

Lemma round_half_even_exact (k b : Z) :
  0 < b -> round_half_even (k * b) b = k.
Proof.
  intros Hb. unfold round_half_even.
  rewrite Z.div_mul, Z.mod_mul by lia.
  destruct (Z.ltb_spec (2 * 0) b); [reflexivity | lia].
Qed.

(** A number with at most 53 significant bits is a [double]. *)
Lemma double_of_uint64_exact (q j : Z) :
  0 <= q < 2 ^ 53 -> 0 <= j -> double_of_uint64 (q * 2 ^ j) = q * 2 ^ j.
Proof.
  intros Hq Hj. unfold double_of_uint64.
  assert (Hpj : 0 < 2 ^ j) by (apply Z.pow_pos_nonneg; lia).
  destruct (Z.ltb_spec (q * 2 ^ j) (2 ^ 53)) as [|Hbig]; [reflexivity|].
  set (v := q * 2 ^ j) in *.
  assert (Hl : 53 <= Z.log2 v) by (apply Z.log2_le_pow2; lia).
  assert (Hu : Z.log2 v < 53 + j).
  { apply Z.log2_lt_pow2; [lia|]. rewrite Z.pow_add_r by lia. unfold v. nia. }
  set (e := Z.log2 v - 52).
  assert (Hpe : 0 < 2 ^ e) by (apply Z.pow_pos_nonneg; lia).
  assert (Hv : v = (q * 2 ^ (j - e)) * 2 ^ e).
  { unfold v. rewrite <- Z.mul_assoc, <- Z.pow_add_r by lia.
    do 2 f_equal. lia. }
  rewrite Hv at 1. rewrite round_half_even_exact by exact Hpe.
  symmetry. exact Hv.
Qed.

Lemma multi_pow2 (m : multipliers) : multi (data m) = 2 ^ (10 * rank m).
Proof. destruct m; reflexivity. Qed.

Lemma get_multiplier_scaled (n : Z) (m : multipliers) :
  1 <= n < 1024 -> get_multiplier (n * multi (data m)) = m.
Proof.
  intros Hn.
  destruct (get_multiplier_cases (n * multi (data m)))
    as [H|[H|[H|[H|[H|[H|H]]]]]];
    destruct H as [Hb ->]; destruct m; cbn [data multi] in Hb;
    unfold EB, PB, TB, GB, MB, KB in Hb; try reflexivity; lia.
Qed.

(** X17: an argument made of a constant n from 1 to 1023 and a magnitude
    letter (n at most 15 for E; after a hexadecimal constant the letter is
    not E or e, which would be read as one more digit) is classified in the
    magnitude of its letter, and its size column shows n.0 followed by the
    upper-case letter. *)
Theorem suffixed_value_displayed
  (lit ds : cstr) (base : Z) (m : multipliers) (c : ascii) :
  literal_digits lit = Some (base, ds) ->
  is_letter_of m c ->
  (base = 16 -> m <> EXI) ->
  1 <= number_of base ds < 1024 ->
  (m = EXI -> number_of base ds < 16) ->
  exists v,
    get_value (lit ++ [c]) = Ok v /\
    get_multiplier v = m /\
    print_size v
    = pad_left " " 6 (fmt_u64 10 (number_of base ds) ++ str ".0")
      ++ [suffix (data m)].
Proof.
  intros Hlit Hc Hx Hn HE. set (n := number_of base ds) in *.
  destruct (letter_not_digit m c base Hc (literal_base _ _ _ Hlit) Hx)
    as (Hd & Hnx & Hnb & Hnul & Hm).
  exists (n * multi (data m)).
  assert (Hsmall : 0 <= n * multi (data m) < 2 ^ 64).
  { destruct m; cbn [data multi]; unfold EB, PB, TB, GB, MB, KB;
      try lia. specialize (HE eq_refl). lia. }
  split; [|split].
  - rewrite (get_value_literal_tail lit ds [] base c Hlit Hd) by (intros _; auto).
    rewrite Hnul, Hm. fold n. f_equal.
    replace (Z.min n UINT64_MAX) with n by (unfold UINT64_MAX; lia).
    unfold wrap64. apply Z.mod_small. exact Hsmall.
  - apply get_multiplier_scaled. exact Hn.
  - unfold print_size. rewrite (get_multiplier_scaled n m Hn).
    rewrite multi_pow2.
    rewrite double_of_uint64_exact by (destruct m; simpl; lia).
    unfold fmt_f1.
    replace (n * 2 ^ (10 * rank m) * 10) with ((n * 10) * 2 ^ (10 * rank m)) by ring.
    rewrite round_half_even_exact by (apply Z.pow_pos_nonneg; destruct m; simpl; lia).
    rewrite Z.div_mul, Z.mod_mul by lia. reflexivity.
Qed.

Lemma suffixed_value_displayed_witness :
  exists v,
    get_value (str "0x20" ++ ["p"%char]) = Ok v /\
    get_multiplier v = PETA /\
    print_size v = str "  32.0P".
Proof.
  apply (suffixed_value_displayed (str "0x20") (str "20") 16 PETA "p").
  - reflexivity.
  - split; [discriminate | right; reflexivity].
  - intros _; discriminate.
  - vm_compute. split; [discriminate | reflexivity].
  - intros H; discriminate H.
Defined.

(** X18: a binary literal with n digits parses to a value below 2^n. *)
Theorem get_value_binary_bound (s : cstr) (v : Z) :
  is_binary_literal s = true -> get_value s = Ok v ->
  0 <= v < 2 ^ Z.of_nat (strlen s - 2).
Proof.
  intros Hb. rewrite (get_value_binary_cases s Hb).
  destruct (66 <? strlen s)%nat; [discriminate|].
  destruct (forallb is_bit (binary_digits s)); [|discriminate].
  intros H. inversion H.
  pose proof (bits_value_bound (binary_digits s)) as Hbv.
  assert (Hl : length (binary_digits s) = (strlen s - 2)%nat).
  { unfold binary_digits. rewrite length_firstn, length_skipn.
    pose proof (strlen_le_length s). lia. }
  rewrite Hl in Hbv. exact Hbv.
Qed.

Lemma get_value_binary_bound_witness :
  0 <= 5 < 2 ^ Z.of_nat (strlen (str "0b00101") - 2).
Proof.
  apply (get_value_binary_bound (str "0b00101") 5); reflexivity.
Defined.

(** *** The mode flag *)

Lemma has_flag_false (a : cstr) (letter : ascii) :
  Ascii.eqb NUL letter = false ->
  firstn 2 a <> ["-"%char; letter] -> has_flag a letter = false.
Proof.
  intros Hl H. unfold has_flag, char_at.
  destruct a as [|c0 [|c1 a]]; cbn [nth].
  - reflexivity.
  - rewrite Hl. apply andb_false_r.
  - destruct (Ascii.eqb_spec c0 "-") as [->|]; [|reflexivity].
    destruct (Ascii.eqb_spec c1 letter) as [->|]; [|reflexivity].
    exfalso. apply H. reflexivity.
Qed.

(** X10: a first argument that begins with the characters [-b] or [-B]
    is the mode flag whatever follows those two characters, and is never
    parsed: the run is the one with the bare flag, so that [-b... 5]
    prints the bit field [.1.1] and [-B... 5] prints [0101].  A first
    argument that does not begin with [-b] or [-B] is a value: if it does
    not parse the run fails with its message, and if it parses its line
    comes first, without bit field. *)
Theorem flag_by_prefix (prog a tail : cstr) (args : list cstr) :
  main (prog :: (str "-b" ++ tail) :: args) = main (prog :: str "-b" :: args) /\
  main (prog :: (str "-B" ++ tail) :: args) = main (prog :: str "-B" :: args) /\
  stdout (main [prog; str "-b" ++ tail; str "5"])
  = str "0x0005    5    5.0b  .1.1" ++ [LF] /\
  stdout (main [prog; str "-B" ++ tail; str "5"])
  = str "0x0005    5    5.0b  0101" ++ [LF] /\
  (firstn 2 a <> str "-b" -> firstn 2 a <> str "-B" ->
   (forall e, get_value a = Err e ->
              main (prog :: a :: args)
              = mk_process [] (error_message a e) EXIT_FAILURE) /\
   (forall v vs, get_value a = Ok v -> parse_to args vs ->
                 lines_of (stdout (main (prog :: a :: args)))
                 = map (value_line_body (max_width (v :: vs) BYTE)) (v :: vs))).
Proof.
  split; [reflexivity|]. split; [reflexivity|].
  split; [reflexivity|]. split; [reflexivity|].
  intros Hb HB.
  pose proof (has_flag_false a "b" eq_refl Hb) as Fb.
  pose proof (has_flag_false a "B" eq_refl HB) as FB.
  assert (Hm : mode_of (prog :: a :: args) = (false, 1%nat, " "%char)).
  { unfold mode_of. cbn [length Nat.ltb Nat.leb nth]. rewrite Fb, FB. reflexivity. }
  split.
  - intros e He. unfold main. rewrite Hm. cbn [length Nat.leb skipn width_pass].
    rewrite He. reflexivity.
  - intros v vs Hv Hvs.
    assert (Hp : parse_to (value_args (prog :: a :: args)) (v :: vs)).
    { unfold value_args. rewrite Hm. cbn [fst snd skipn].
      constructor; assumption. }
    rewrite (main_values _ (v :: vs)); [|unfold value_args; rewrite Hm; discriminate | exact Hp].
    cbn [stdout]. unfold show_bin_of, zero_ch_of. rewrite Hm. cbn [fst snd].
    pose proof (parse_to_range _ _ Hp) as Hr.
    assert (E : map (value_line " " false (max_width (v :: vs) BYTE)) (v :: vs)
                = map (fun b => b ++ [LF])
                    (map (value_line_body (max_width (v :: vs) BYTE)) (v :: vs))).
    { rewrite map_map. apply map_ext. intros x. apply value_line_split. }
    rewrite E. apply lines_of_lines.
    apply Forall_map. eapply Forall_impl; [|exact Hr].
    intros x Hx. apply value_line_body_no_lf. exact Hx.
Qed.

Lemma flag_by_prefix_witness :
  main [str "xvalues"; str "0b102"; str "5"]
  = mk_process [] (str "Binary numbers can only contain 0 or 1." ++ [LF]) 1 /\
  lines_of (stdout (main [str "xvalues"; str "-1"; str "5"]))
  = [str "0xffffffffffffffff 18446744073709551615   16.0E";
     str "0x0000000000000005                    5    5.0b"].
Proof.
  split.
  - refine (proj1 (proj2 (proj2 (proj2 (proj2
              (flag_by_prefix (str "xvalues") (str "0b102") [] [str "5"]))))
              _ _) InvalidBinaryDigit _);
      [discriminate | discriminate | reflexivity].
  - refine (proj2 (proj2 (proj2 (proj2 (proj2
              (flag_by_prefix (str "xvalues") (str "-1") [] [str "5"]))))
              _ _) 18446744073709551615 [5] _ _);
      [discriminate | discriminate | reflexivity | repeat constructor].
Defined.

(** *** The table in every mode *)

(** X11: with no argument at all, or with only a first argument that
    begins with [-b] or [-B], the run prints the table: the 20 lines of
    [demo_table_text], each followed in the two flag modes by two blanks
    and the bit field of [demo_bit_fields], clear bits shown as [.] for
    [-b] and as [0] for [-B]; nothing goes to [stderr] and the status is
    0. *)
Theorem main_table_in_every_mode (prog tail : cstr) :
  main [] = mk_process (table_text false " ") [] 0 /\
  main [prog; str "-b" ++ tail] = mk_process (table_text true ".") [] 0 /\
  main [prog; str "-B" ++ tail] = mk_process (table_text true "0") [] 0 /\
  length (lines_of (table_text true ".")) = 20%nat /\
  length (lines_of (table_text true "0")) = 20%nat /\
  nth 19 (lines_of (table_text true "0")) [] 
  = str "0x1000000000000000  1152921504606846976    1.0E" ++ str "  "
    ++ str "0001000000000000000000000000000000000000000000000000000000000000".
Proof.
  split; [vm_compute; reflexivity|]. split; [vm_compute; reflexivity|].
  split; [vm_compute; reflexivity|]. split; [vm_compute; reflexivity|].
  split; vm_compute; reflexivity.
Qed.
